(** * getoutvideo_django / video_processor: a shallow embedding

    The development follows the layout of the application:

    - [PyStr]: the Python [str] and [pathlib] primitives the code calls
      ([lower], [replace], [in], [split], [join], [strip], [Path.stem]);
    - [Exceptions]: exceptions.py, the four categorised errors;
    - [Outside]: what the application takes from outside (the external
      service client, the clock, [tempfile], the framework's validators);
    - [Services]: services.py, over an explicit world (external service,
      files, temporary directories);
    - [Re]: the fragment of Python's [re] used by the URL patterns;
    - [Serializers]: serializers.py;
    - [Views]: views.py;
    - [Spec]: the wording of the specification, to compare the code with;
    - [Mock]: a test double for the collaborators.

    The properties follow the definitions.

    Text is modelled by [string], that is, sequences of 8-bit characters;
    case mapping, whitespace and the word-character class are those of ASCII. *)

From Stdlib Require Import Ascii String NArith ZArith Bool List Lia.
From stdpp Require Import base option list strings pretty gmap.

(* ===================================================================== *)
(** * Python string primitives                                            *)
(* ===================================================================== *)

Module PyStr.

(** [c.lower()] for one character. *)
Definition lower_ascii (c : ascii) : ascii :=
  let n := N_of_ascii c in
  if (65 <=? n)%N && (n <=? 90)%N then ascii_of_N (n + 32) else c.

(** [s.lower()] *)
Fixpoint lower (s : string) : string :=
  match s with
  | EmptyString => EmptyString
  | String c s' => String (lower_ascii c) (lower s')
  end.

(** [s.replace(old, new)] for a one-character [old], the only form the
    application uses. *)
Fixpoint replace (old : ascii) (new : string) (s : string) : string :=
  match s with
  | EmptyString => EmptyString
  | String c s' =>
      if Ascii.eqb c old then new +:+ replace old new s'
      else String c (replace old new s')
  end.

(** [s.startswith(p)] *)
Fixpoint startswith (p s : string) : bool :=
  match p, s with
  | EmptyString, _ => true
  | String a p', String b s' => Ascii.eqb a b && startswith p' s'
  | String _ _, EmptyString => false
  end.

(** [needle in hay] *)
Fixpoint str_in (needle hay : string) : bool :=
  startswith needle hay ||
  match hay with
  | EmptyString => false
  | String _ hay' => str_in needle hay'
  end.

(** [s.split(sep)] for a one-character separator: always at least one part. *)
Fixpoint split (sep : ascii) (s : string) : list string :=
  match s with
  | EmptyString => [EmptyString]
  | String c s' =>
      if Ascii.eqb c sep then EmptyString :: split sep s'
      else match split sep s' with
           | w :: ws => String c w :: ws
           | [] => [String c EmptyString]
           end
  end.

(** [sep.join(parts)] *)
Fixpoint join (sep : string) (parts : list string) : string :=
  match parts with
  | [] => EmptyString
  | [w] => w
  | w :: ws => w +:+ sep +:+ join sep ws
  end.

(** [c.isspace()] on ASCII: tab, line feed, vertical tab, form feed,
    carriage return, the four separators 28..31 and the space. *)
Definition isspace (c : ascii) : bool :=
  let n := N_of_ascii c in
  ((9 <=? n)%N && (n <=? 13)%N) || ((28 <=? n)%N && (n <=? 32)%N).

Fixpoint lstrip (s : string) : string :=
  match s with
  | EmptyString => EmptyString
  | String c s' => if isspace c then lstrip s' else s
  end.

(** [s.rstrip()]: a character is kept when something that is kept follows
    it or when it is not whitespace. *)
Fixpoint rstrip (s : string) : string :=
  match s with
  | EmptyString => EmptyString
  | String c s' =>
      match rstrip s' with
      | EmptyString => if isspace c then EmptyString else String c EmptyString
      | r => String c r
      end
  end.

(** [s.strip()] *)
Definition strip (s : string) : string := rstrip (lstrip s).

(** [s.rfind(c)]: index of the last occurrence of the character. *)
Fixpoint rfind (c : ascii) (s : string) : option nat :=
  match s with
  | EmptyString => None
  | String a s' =>
      match rfind c s' with
      | Some i => Some (S i)
      | None => if Ascii.eqb a c then Some 0 else None
      end
  end.

(** [s[:n]] *)
Fixpoint take (n : nat) (s : string) : string :=
  match n, s with
  | S n', String c s' => String c (take n' s')
  | _, _ => EmptyString
  end.

(** [PurePosixPath(p).name]: the last component of the path that is neither
    empty nor a single dot; the empty string when there is none. *)
Definition path_name (p : string) : string :=
  List.last
    (List.filter (fun x => negb (String.eqb x EmptyString || String.eqb x "."))
                 (split "/" p))
    EmptyString.

(** [PurePosixPath(p).stem] (Python 3.11/3.12): the name without its last
    suffix; a leading or a trailing dot does not start a suffix. *)
Definition stem (p : string) : string :=
  let name := path_name p in
  match rfind "." name with
  | Some i =>
      if (0 <? i)%nat && (i <? String.length name - 1)%nat then take i name
      else name
  | None => name
  end.

(** [repr(s)] for text without quotes, backslashes or control characters. *)
Definition repr_str (s : string) : string := "'" +:+ s +:+ "'".

(** [repr(l)] / [f"{l}"] for a list of such strings. *)
Definition repr_list (l : list string) : string :=
  "[" +:+ join ", " (map repr_str l) +:+ "]".

(** [x in l] for a list of strings. *)
Definition list_in (x : string) (l : list string) : bool :=
  existsb (String.eqb x) l.

End PyStr.


(* ===================================================================== *)
(** * exceptions.py                                                       *)
(* ===================================================================== *)

Module Exceptions.

(** rest_framework.status *)
Definition HTTP_200_OK : Z := 200.
Definition HTTP_400_BAD_REQUEST : Z := 400.
Definition HTTP_422_UNPROCESSABLE_ENTITY : Z := 422.
Definition HTTP_500_INTERNAL_SERVER_ERROR : Z := 500.
Definition HTTP_502_BAD_GATEWAY : Z := 502.

(** The exceptions that reach the application: the four subclasses of
    [VideoProcessorError], each built from its message, and every other
    [Exception], of which only [str(e)] is ever inspected. *)
Inductive PyExn : Type :=
| VideoValidationError (message : string)
| ExternalServiceError (message : string)
| ProcessingTimeoutError (message : string)
| ConfigurationError (message : string)
| OtherException (text : string).

(** [str(e)]: [VideoProcessorError.__init__] passes the message on to
    [Exception.__init__]. *)
Definition str (e : PyExn) : string :=
  match e with
  | VideoValidationError m | ExternalServiceError m
  | ProcessingTimeoutError m | ConfigurationError m => m
  | OtherException t => t
  end.

(** [e.status_code], as fixed by each subclass's [__init__]. *)
Definition status_code (e : PyExn) : option Z :=
  match e with
  | VideoValidationError _ => Some HTTP_400_BAD_REQUEST
  | ExternalServiceError _ => Some HTTP_502_BAD_GATEWAY
  | ProcessingTimeoutError _ => Some HTTP_422_UNPROCESSABLE_ENTITY
  | ConfigurationError _ => Some HTTP_500_INTERNAL_SERVER_ERROR
  | OtherException _ => None
  end.

(** [isinstance(e, (VideoValidationError, ExternalServiceError,
    ProcessingTimeoutError, ConfigurationError))] *)
Definition categorized (e : PyExn) : bool :=
  match e with
  | OtherException _ => false
  | _ => true
  end.

(** The result of running code that may raise. *)
Inductive outcome (A : Type) : Type :=
| Return (a : A)
| Raise (e : PyExn).
Arguments Return {A} a.
Arguments Raise {A} e.

End Exceptions.

(* ===================================================================== *)
(** * What lies outside the application                                   *)
(* ===================================================================== *)

Module Outside.
Import Exceptions.

(** What the application takes from outside. [Ext] is the state of the
    external service, the clock and the operating system; [Float] stands for
    Python floats and [DateTime] for [datetime] values.

    - the [GetOutVideoAPI] client: its constructor and its two calls, each
      of which may raise; [process_youtube_url] also writes files;
    - [settings.GETOUTVIDEO_CONFIG.get("OPENAI_API_KEY")];
    - the clock, and the name [tempfile] picks for a new directory;
    - from Django and the REST framework: the [URLValidator] behind
      [URLField], and the parser behind [DateTimeField]. *)
Class Collaborators : Type := {
  Ext : Type;
  Float : Type;
  DateTime : Type;
  settings_OPENAI_API_KEY : option string;
  api_init : string -> option PyExn;
  api_get_available_styles : Ext -> Ext * outcome (list string);
  api_process_youtube_url :
    string -> string -> list string -> string ->
    Ext -> gmap string string ->
    Ext * gmap string string * outcome (list string);
  time_time : Ext -> Float;
  (** [round(t1 - t0, 2)] *)
  round_elapsed : Float -> Float -> Float;
  (** [datetime.now(UTC).isoformat()] *)
  now_isoformat : Ext -> string;
  mkdtemp : Ext -> string;
  url_validator : string -> bool;
  parse_datetime : string -> option DateTime
}.

End Outside.

(* ===================================================================== *)
(** * services.py                                                         *)
(* ===================================================================== *)

Module Services.
Import PyStr Exceptions Outside.

(** ** The pure helpers of [VideoProcessingService] *)

(** The local dict [style_mapping]; [items()] iterates in insertion order. *)
Definition style_mapping : list (string * string) :=
  [ ("Balanced and Detailed", "balanced");
    ("Summary", "summary");
    ("Educational", "educational");
    ("Narrative Rewriting", "narrative");
    ("Q&A Generation", "qa_generation") ].

(** The inner [for api_style, result_style in style_mapping.items()] loop
    with its [break]: [None] when the loop runs to its end. *)
Fixpoint find_result_key (mapping : list (string * string)) (style : string)
  : option string :=
  match mapping with
  | [] => None
  | (api_style, result_style) :: rest =>
      if str_in (replace " " "_" (lower api_style))
                (replace " " "_" (lower style))
      then Some result_style
      else find_result_key rest style
  end.

(** Truth value of a [str | None]. *)
Definition truthy (k : option string) : bool :=
  match k with
  | Some (String _ _) => true
  | _ => false
  end.

(** One iteration of the loop over [output_files], on the pair
    [(results, video_title)]. The files on disk are a map from the path of a
    regular file to its UTF-8 text: [file_path.exists()] is a successful
    lookup and [read_text] its value. *)
Definition parse_output_file (files : gmap string string)
    (acc : gmap string string * string) (file_path_str : string)
  : gmap string string * string :=
  let '(results, video_title) := acc in
  match files !! file_path_str with
  | Some content =>
      let filename := stem file_path_str in
      if str_in "_" filename then
        let parts := split "_" filename in
        if (2 <=? length parts)%nat then
          let video_title := hd EmptyString parts in
          let style := join "_" (tl parts) in
          let result_key := find_result_key style_mapping style in
          if truthy result_key then
            (<[default EmptyString result_key := content]> results, video_title)
          else
            let result_key := replace "&" "and" (replace " " "_" (lower style)) in
            (<[result_key := content]> results, video_title)
        else (results, video_title)
      else (results, video_title)
  | None => (results, video_title)
  end.

Definition _parse_output_files (files : gmap string string)
    (output_files : list string) : gmap string string * string :=
  fold_left (parse_output_file files) output_files (∅, "Unknown Title").

(** [_handle_processing_error]: the exception it raises (it never returns). *)
Definition _handle_processing_error (e : PyExn) (video_url : string) : PyExn :=
  let error_msg := lower (str e) in
  if str_in "invalid url" error_msg
     || str_in "not found" error_msg
     || str_in "unavailable" error_msg
  then VideoValidationError ("Invalid or inaccessible video URL: " +:+ video_url)
  else if str_in "timeout" error_msg
  then ProcessingTimeoutError "Video processing timed out"
  else if str_in "api key" error_msg || str_in "authentication" error_msg
  then ConfigurationError "API authentication failed"
  else ExternalServiceError ("External service error: " +:+ str e).

(** ** The world the service runs in *)

(** Calls made to the external service and temporary directories acquired
    and released, most recent first: a record of what the code did, kept
    beside the state it acts on. *)
Inductive Event : Type :=
| ApiGetAvailableStyles
| ApiProcessYoutubeUrl (url output_dir : string) (styles : list string)
                       (output_language : string)
| TempDirCreated (d : string)
| TempDirRemoved (d : string).

Section Monad.
Context {C : Collaborators}.

Record World : Type := mkWorld {
  ext : Ext;
  (** regular files: path to text content *)
  files : gmap string string;
  (** directories made by [tempfile] that still exist *)
  tempdirs : gset string;
  events : list Event
}.

(** Computations: they read and change the world, and return or raise. *)
Definition M (A : Type) : Type := World -> World * outcome A.

Definition ret {A} (a : A) : M A := fun w => (w, Return a).
Definition raise {A} (e : PyExn) : M A := fun w => (w, Raise e).
Definition bind {A B} (m : M A) (k : A -> M B) : M B :=
  fun w => match m w with
           | (w', Return a) => k a w'
           | (w', Raise e) => (w', Raise e)
           end.
(** [try: m  except Exception as e: h e] *)
Definition try_except {A} (m : M A) (h : PyExn -> M A) : M A :=
  fun w => match m w with
           | (w', Return a) => (w', Return a)
           | (w', Raise e) => h e w'
           end.
(** [try: m  finally: f] for a [f] that does not raise. *)
Definition finally {A} (m : M A) (f : World -> World) : M A :=
  fun w => let '(w', r) := m w in (f w', r).

Definition read {A} (f : World -> A) : M A := fun w => (w, Return (f w)).

End Monad.

#[global] Instance M_ret {C : Collaborators} : MRet M := @ret C.
#[global] Instance M_bind {C : Collaborators} : MBind M :=
  fun A B k m => bind m k.

Section Service.
Context {C : Collaborators}.

(** *** The external calls, as the service sees them *)

Definition api_call_get_available_styles : M (list string) :=
  fun w =>
    let '(x, r) := api_get_available_styles (ext w) in
    (mkWorld x (files w) (tempdirs w) (ApiGetAvailableStyles :: events w), r).

Definition api_call_process_youtube_url
    (url output_dir : string) (styles : list string) (output_language : string)
  : M (list string) :=
  fun w =>
    let '(x, fs, r) :=
      api_process_youtube_url url output_dir styles output_language
                              (ext w) (files w) in
    (mkWorld x fs (tempdirs w)
       (ApiProcessYoutubeUrl url output_dir styles output_language :: events w),
     r).

(** *** tempfile.TemporaryDirectory *)

Definition inside (d : string) (path : string) : bool :=
  startswith (d +:+ "/") path.

(** [__enter__]: a directory is made and its name returned. *)
Definition TemporaryDirectory_enter : M string :=
  fun w =>
    let d := mkdtemp (ext w) in
    (mkWorld (ext w) (files w) ({[ d ]} ∪ tempdirs w)
       (TempDirCreated d :: events w),
     Return d).

(** [__exit__] / [cleanup()]: the directory goes, with all it holds. *)
Definition TemporaryDirectory_exit (d : string) (w : World) : World :=
  mkWorld (ext w)
    (filter (fun kv => inside d (fst kv) = false) (files w))
    (tempdirs w ∖ {[ d ]})
    (TempDirRemoved d :: events w).

(** [with tempfile.TemporaryDirectory() as temp_dir: body] *)
Definition with_TemporaryDirectory {A} (body : string -> M A) : M A :=
  temp_dir ← TemporaryDirectory_enter;
  finally (body temp_dir) (TemporaryDirectory_exit temp_dir).

(** *** VideoProcessingService *)

(** [__init__] *)
Definition VideoProcessingService_init : M unit :=
  match settings_OPENAI_API_KEY with
  | Some (String _ _ as api_key) =>
      match api_init api_key with
      | None => ret tt
      | Some e =>
          raise (ConfigurationError
                   ("Failed to initialize GetOutVideo API: " +:+ str e))
      end
  | _ => raise (ConfigurationError "OPENAI_API_KEY not configured")
  end.

(** [get_available_styles]: whatever the client raises comes out as an
    [ExternalServiceError]. *)
Definition get_available_styles : M (list string) :=
  try_except api_call_get_available_styles
    (fun e => raise (ExternalServiceError
                       ("Failed to get available styles: " +:+ str e))).

Definition _validate_styles (styles : list string) : M unit :=
  available_styles ← get_available_styles;
  let invalid_styles :=
    List.filter (fun s => negb (list_in s available_styles)) styles in
  match invalid_styles with
  | _ :: _ =>
      raise (VideoValidationError
               ("Invalid styles: " +:+ repr_list invalid_styles +:+ ". "
                +:+ "Available styles: " +:+ repr_list available_styles))
  | [] => ret tt
  end.

Record Metadata : Type := mkMetadata {
  processing_time : Float;
  language : string;
  styles_processed : list string
}.

(** The dict [process_video] returns. *)
Record ProcessingResult : Type := mkProcessingResult {
  video_url : string;
  video_title : string;
  processed_at : string;
  results : gmap string string;
  metadata : Metadata
}.

(** The body of the [try] block of [process_video]. *)
Definition process_video_try (start_time : Float) (video_url : string)
    (styles : option (list string)) (output_language : string)
  : M ProcessingResult :=
  styles ← match styles with
           | None => get_available_styles
           | Some l => ret l
           end;
  _validate_styles styles;;
  with_TemporaryDirectory (fun temp_dir =>
    output_files ← api_call_process_youtube_url
                     video_url temp_dir styles output_language;
    parsed ← read (fun w => _parse_output_files (files w) output_files);
    now ← read (fun w => time_time (ext w));
    processed_at ← read (fun w => now_isoformat (ext w));
    ret (mkProcessingResult
           video_url
           (replace "_" " " (snd parsed))
           processed_at
           (fst parsed)
           (mkMetadata (round_elapsed now start_time)
                       output_language styles))).

(** The [except] clauses of [process_video], in order. *)
Definition process_video_except (video_url : string) (e : PyExn)
  : M ProcessingResult :=
  match e with
  | VideoValidationError _ => raise e
  | ExternalServiceError _ | ProcessingTimeoutError _ | ConfigurationError _ =>
      raise e
  | OtherException _ => raise (_handle_processing_error e video_url)
  end.

Definition process_video (video_url : string) (styles : option (list string))
    (output_language : string) : M ProcessingResult :=
  start_time ← read (fun w => time_time (ext w));
  try_except (process_video_try start_time video_url styles output_language)
             (process_video_except video_url).

End Service.

End Services.

(* ===================================================================== *)
(** * Regular expressions: the fragment of [re] the URL patterns use      *)
(* ===================================================================== *)

Module Re.

Inductive regex : Type :=
| Void
| Eps
| Chr (c : ascii)
| Cls (p : ascii -> bool)
| Cat (r1 r2 : regex)
| Alt (r1 r2 : regex)
| Star (r : regex).

(** The words a pattern matches in full. *)
Inductive matches : regex -> string -> Prop :=
| MEps : matches Eps EmptyString
| MChr c : matches (Chr c) (String c EmptyString)
| MCls p c : p c = true -> matches (Cls p) (String c EmptyString)
| MCat r1 r2 u v : matches r1 u -> matches r2 v -> matches (Cat r1 r2) (u +:+ v)
| MAltL r1 r2 u : matches r1 u -> matches (Alt r1 r2) u
| MAltR r1 r2 u : matches r2 u -> matches (Alt r1 r2) u
| MStar0 r : matches (Star r) EmptyString
| MStarS r u v : matches r u -> matches (Star r) v -> matches (Star r) (u +:+ v).

Fixpoint nullable (r : regex) : bool :=
  match r with
  | Void | Chr _ | Cls _ => false
  | Eps | Star _ => true
  | Cat r1 r2 => nullable r1 && nullable r2
  | Alt r1 r2 => nullable r1 || nullable r2
  end.

(** What is left of the pattern once the character [a] has been read. *)
Fixpoint deriv (a : ascii) (r : regex) : regex :=
  match r with
  | Void | Eps => Void
  | Chr c => if Ascii.eqb a c then Eps else Void
  | Cls p => if p a then Eps else Void
  | Cat r1 r2 =>
      if nullable r1 then Alt (Cat (deriv a r1) r2) (deriv a r2)
      else Cat (deriv a r1) r2
  | Alt r1 r2 => Alt (deriv a r1) (deriv a r2)
  | Star r1 => Cat (deriv a r1) (Star r1)
  end.

(** [re.match(pattern, s) is not None]: the pattern matches some prefix of
    [s], starting at its first character. *)
Fixpoint re_match (r : regex) (s : string) : bool :=
  nullable r ||
  match s with
  | EmptyString => false
  | String a s' => re_match (deriv a r) s'
  end.

(** Pattern syntax. *)

(** a literal text *)
Fixpoint lit (s : string) : regex :=
  match s with
  | EmptyString => Eps
  | String c s' => Cat (Chr c) (lit s')
  end.
(** [r?] *)
Definition opt (r : regex) : regex := Alt r Eps.
(** [r+] *)
Definition plus (r : regex) : regex := Cat r (Star r).
(** [^]: the start of the text, which is where [re.match] begins. *)
Definition caret : regex := Eps.
(** [.] (without DOTALL): any character but the line feed. *)
Definition not_newline (c : ascii) : bool := negb (Ascii.eqb c "010").
Definition dot : regex := Cls not_newline.
(** [\w] on ASCII text: letters, digits and the underscore. *)
Definition is_word (c : ascii) : bool :=
  let n := N_of_ascii c in
  ((48 <=? n)%N && (n <=? 57)%N) || ((65 <=? n)%N && (n <=? 90)%N)
  || ((97 <=? n)%N && (n <=? 122)%N) || (n =? 95)%N.
(** [[\w-]] *)
Definition word_or_hyphen (c : ascii) : bool := is_word c || Ascii.eqb c "-".

(** The parts of a pattern, one after the other. *)
Fixpoint cats (rs : list regex) : regex :=
  match rs with
  | [] => Eps
  | [r] => r
  | r :: rs' => Cat r (cats rs')
  end.

End Re.

(* ===================================================================== *)
(** * serializers.py                                                      *)
(* ===================================================================== *)

Module Serializers.
Import PyStr Exceptions Outside Re.

(** A validator returns the cleaned value or raises
    [serializers.ValidationError] with a detail. *)
Inductive validation (A : Type) : Type :=
| Valid (a : A)
| Invalid (detail : string).
Arguments Valid {A} a.
Arguments Invalid {A} detail.

(** ** Fields of the REST framework *)

(** [CharField(allow_blank=..., max_length=...).run_validation(data)] on a
    string, with the default [trim_whitespace=True]. *)
Definition CharField (allow_blank : bool) (max_length : option nat)
    (data : string) : validation string :=
  match strip data with
  | EmptyString =>
      if allow_blank then Valid EmptyString
      else Invalid "This field may not be blank."
  | value =>
      if match max_length with
         | Some n => (n <? String.length value)%nat
         | None => false
         end
      then Invalid ("Ensure this field has no more than "
                    +:+ pretty (default 0%nat max_length) +:+ " characters.")
      else if str_in (String "000" EmptyString) value
      then Invalid "Null characters are not allowed."
      else Valid value
  end.

(** [ListField(child=child).run_validation(data)] on a list: every item
    goes through the child; the first failure is reported. *)
Fixpoint ListField {A} (child : string -> validation A) (data : list string)
  : validation (list A) :=
  match data with
  | [] => Valid []
  | x :: rest =>
      match child x with
      | Invalid d => Invalid d
      | Valid a =>
          match ListField child rest with
          | Invalid d => Invalid d
          | Valid l => Valid (a :: l)
          end
      end
  end.

Section Fields.
Context {C : Collaborators}.

(** [URLField().run_validation(data)]: a [CharField] followed by Django's
    [URLValidator]. *)
Definition URLField (data : string) : validation string :=
  match CharField false None data with
  | Invalid d => Invalid d
  | Valid value =>
      if url_validator value then Valid value
      else Invalid "Enter a valid URL."
  end.

(** [DateTimeField().run_validation(data)] on a string. *)
Definition DateTimeField (data : string) : validation DateTime :=
  match parse_datetime data with
  | Some t => Valid t
  | None => Invalid "Datetime has wrong format."
  end.

(** [FloatField().run_validation(data)] on a float: [float(data)]. *)
Definition FloatField (data : Float) : validation Float := Valid data.

End Fields.

(** ** VideoProcessRequestSerializer *)

Definition youtube_id : regex := plus (Cls word_or_hyphen).

(** The list [youtube_patterns], pattern by pattern. *)
Definition youtube_patterns : list regex :=
  [ cats [caret; lit "http"; opt (Chr "s"); lit "://"; opt (lit "www.");
         lit "youtube.com/watch?v="; youtube_id];
    cats [caret; lit "http"; opt (Chr "s"); lit "://"; opt (lit "www.");
         lit "youtube.com/watch?"; Star dot; lit "v="; youtube_id];
    cats [caret; lit "http"; opt (Chr "s"); lit "://youtu.be/"; youtube_id];
    cats [caret; lit "http"; opt (Chr "s"); lit "://"; opt (lit "www.");
         lit "youtube.com/embed/"; youtube_id];
    cats [caret; lit "http"; opt (Chr "s"); lit "://"; opt (lit "www.");
         lit "youtube.com/v/"; youtube_id] ].

Definition validate_video_url (value : string) : validation string :=
  if negb (existsb (fun pattern => re_match pattern value) youtube_patterns)
  then Invalid "Invalid YouTube URL. Please provide a valid YouTube video URL."
  else Valid value.

Definition valid_styles : list string :=
  ["Summary"; "Educational"; "Balanced"; "QA Generation"; "Narrative"].

(** The [for style in value] loop of [validate_styles]: it raises at the
    first style that is not in [valid_styles]. *)
Fixpoint validate_styles_loop (value : list string) : option string :=
  match value with
  | [] => None
  | style :: rest =>
      if negb (list_in style valid_styles)
      then Some ("Invalid style '" +:+ style +:+ "'. "
                 +:+ "Valid styles are: " +:+ join ", " valid_styles)
      else validate_styles_loop rest
  end.

Definition validate_styles (value : option (list string))
  : validation (list string) :=
  match value with
  | None => Valid []
  | Some value =>
      match validate_styles_loop value with
      | Some error_msg => Invalid error_msg
      | None => Valid value
      end
  end.

(** The parsed JSON body of a request, field by field; [None] is a field
    that is not there. *)
Record RequestData : Type := mkRequestData {
  rd_video_url : option string;
  rd_styles : option (list string);
  rd_output_language : option string
}.

(** [validated_data] of the request serializer. [vd_styles = None] is a
    dict without the key; [validated_data.get("styles")] reads it. *)
Record ValidatedRequest : Type := mkValidatedRequest {
  vd_video_url : string;
  vd_styles : option (list string);
  vd_output_language : string
}.

Section Request.
Context {C : Collaborators}.

(** Field [video_url]: required, [URLField], then [validate_video_url]. *)
Definition request_video_url (d : option string) : validation string :=
  match d with
  | None => Invalid "This field is required."
  | Some data =>
      match URLField data with
      | Invalid e => Invalid e
      | Valid v => validate_video_url v
      end
  end.

(** Field [styles]: not required and without default, so a missing field
    is skipped; otherwise [ListField] of [CharField(max_length=50)]
    (an empty list is allowed), then [validate_styles]. *)
Definition request_styles (d : option (list string))
  : validation (option (list string)) :=
  match d with
  | None => Valid None
  | Some data =>
      match ListField (CharField false (Some 50%nat)) data with
      | Invalid e => Invalid e
      | Valid l =>
          match validate_styles (Some l) with
          | Invalid e => Invalid e
          | Valid v => Valid (Some v)
          end
      end
  end.

(** Field [output_language]: the default when missing. *)
Definition request_output_language (d : option string) : validation string :=
  match d with
  | None => Valid "English"
  | Some data => CharField false (Some 50%nat) data
  end.

Definition field_error {A} (name : string) (v : validation A)
  : list (string * string) :=
  match v with
  | Valid _ => []
  | Invalid d => [(name, d)]
  end.

(** [is_valid()]: [inl errors] or [inr validated_data]. *)
Definition VideoProcessRequestSerializer (data : RequestData)
  : list (string * string) + ValidatedRequest :=
  let u := request_video_url (rd_video_url data) in
  let s := request_styles (rd_styles data) in
  let l := request_output_language (rd_output_language data) in
  match u, s, l with
  | Valid u', Valid s', Valid l' => inr (mkValidatedRequest u' s' l')
  | _, _, _ =>
      inl (field_error "video_url" u ++ field_error "styles" s
           ++ field_error "output_language" l)
  end.

End Request.

(** ** The response serializers *)

(** The declared fields of [VideoResultsSerializer], in order; each is
    [CharField(required=False, allow_blank=True)]. *)
Definition results_fields : list string :=
  ["summary"; "educational"; "balanced"; "qa_generation"; "narrative"].

(** One round of [Serializer.to_internal_value]: a declared field that the
    data lacks is skipped, one that it has is cleaned and kept. Only the
    declared fields are ever read. *)
Definition results_field (data : gmap string string)
    (acc : validation (gmap string string)) (field_name : string)
  : validation (gmap string string) :=
  match acc with
  | Invalid d => Invalid d
  | Valid ret =>
      match data !! field_name with
      | None => Valid ret
      | Some primitive_value =>
          match CharField true None primitive_value with
          | Invalid d => Invalid d
          | Valid validated_value => Valid (<[field_name := validated_value]> ret)
          end
      end
  end.

Definition VideoResultsSerializer (data : gmap string string)
  : validation (gmap string string) :=
  fold_left (results_field data) results_fields (Valid ∅).

Section Response.
Context {C : Collaborators}.
Import Services.

Definition VideoMetadataSerializer (data : Metadata) : validation Metadata :=
  match FloatField (processing_time data) with
  | Invalid d => Invalid d
  | Valid t =>
      match CharField false None (language data) with
      | Invalid d => Invalid d
      | Valid l =>
          match ListField (CharField false None) (styles_processed data) with
          | Invalid d => Invalid d
          | Valid s => Valid (mkMetadata t l s)
          end
      end
  end.

(** [validated_data] of [VideoDataSerializer]. *)
Record VideoData : Type := mkVideoData {
  data_video_url : string;
  data_video_title : string;
  data_processed_at : DateTime;
  data_results : gmap string string;
  data_metadata : Metadata
}.

Definition VideoDataSerializer (data : ProcessingResult) : validation VideoData :=
  match URLField (video_url data) with
  | Invalid d => Invalid d
  | Valid u =>
      match CharField false None (video_title data) with
      | Invalid d => Invalid d
      | Valid t =>
          match DateTimeField (processed_at data) with
          | Invalid d => Invalid d
          | Valid p =>
              match VideoResultsSerializer (results data) with
              | Invalid d => Invalid d
              | Valid r =>
                  match VideoMetadataSerializer (metadata data) with
                  | Invalid d => Invalid d
                  | Valid m => Valid (mkVideoData u t p r m)
                  end
              end
          end
      end
  end.

(** [VideoProcessResponseSerializer(data={"status": status, "data": data})] *)
Definition VideoProcessResponseSerializer (status : string)
    (data : ProcessingResult) : validation (string * VideoData) :=
  match CharField false None status with
  | Invalid d => Invalid d
  | Valid s =>
      match VideoDataSerializer data with
      | Invalid d => Invalid d
      | Valid v => Valid (s, v)
      end
  end.

(** [ErrorResponseSerializer]: [code] is an integer, which [CharField]
    turns into its decimal text. *)
Definition ErrorResponseSerializer (status error : string) (code : Z)
  : validation (string * string * string) :=
  match CharField false None status with
  | Invalid d => Invalid d
  | Valid s =>
      match CharField false None error with
      | Invalid d => Invalid d
      | Valid e =>
          match CharField false None (pretty code) with
          | Invalid d => Invalid d
          | Valid c => Valid (s, e, c)
          end
      end
  end.

End Response.

End Serializers.

(* ===================================================================== *)
(** * views.py                                                            *)
(* ===================================================================== *)

Module Views.
Import PyStr Exceptions Outside Services Serializers.

Section View.
Context {C : Collaborators}.

(** The JSON bodies the view sends. *)
Inductive Body : Type :=
| SuccessBody (status : string) (data : VideoData)
| ErrorBody (status error : string) (code : option string)
| InvalidRequestBody (status error : string) (details : list (string * string)).

Record Response : Type := mkResponse {
  body : Body;
  status : Z
}.

Definition _error_response (message : string) (status_code : Z) : Response :=
  match ErrorResponseSerializer "error" message status_code with
  | Valid (s, e, c) => mkResponse (ErrorBody s e (Some c)) status_code
  | Invalid _ => mkResponse (ErrorBody "error" message None) status_code
  end.

Definition _create_success_response (result_data : ProcessingResult)
    (video_url : string) : Response :=
  match VideoProcessResponseSerializer "success" result_data with
  | Valid (s, d) => mkResponse (SuccessBody s d) HTTP_200_OK
  | Invalid _ =>
      _error_response "Response formatting error" HTTP_500_INTERNAL_SERVER_ERROR
  end.

(** The [except] clauses of [_process_video]. *)
Definition _process_video_except (e : PyExn) : M Response :=
  match e with
  | VideoValidationError m => ret (_error_response m HTTP_400_BAD_REQUEST)
  | ProcessingTimeoutError m =>
      ret (_error_response m HTTP_422_UNPROCESSABLE_ENTITY)
  | ConfigurationError m =>
      ret (_error_response m HTTP_500_INTERNAL_SERVER_ERROR)
  | ExternalServiceError m => ret (_error_response m HTTP_502_BAD_GATEWAY)
  | OtherException _ =>
      ret (_error_response
              "An unexpected error occurred during video processing"
              HTTP_500_INTERNAL_SERVER_ERROR)
  end.

Definition _process_video (validated_data : ValidatedRequest) : M Response :=
  let video_url := vd_video_url validated_data in
  let styles := vd_styles validated_data in
  let output_language := vd_output_language validated_data in
  try_except
    (VideoProcessingService_init;;
     result_data ← process_video video_url styles output_language;
     ret (_create_success_response result_data video_url))
    _process_video_except.

Definition post (data : RequestData) : M Response :=
  match VideoProcessRequestSerializer data with
  | inl errors =>
      ret (mkResponse (InvalidRequestBody "error" "Invalid request data" errors)
                       HTTP_400_BAD_REQUEST)
  | inr validated_data => _process_video validated_data
  end.

End View.

End Views.

(* ===================================================================== *)
(** * The specification's own words                                       *)
(* ===================================================================== *)

(** Definitions that follow the text of the specification, to be compared
    with the code above. *)
Module Spec.
Import PyStr Exceptions.

(** [t] occurs in [s]. *)
Definition substring (t s : string) : Prop :=
  exists pre post : string, s = pre +:+ t +:+ post.

(** [t] occurs in [s] up to the case of letters: some stretch of [s]
    lowercases to the lowercase text [t]. *)
Definition contains_ci (t s : string) : Prop :=
  exists pre mid post : string, s = pre +:+ mid +:+ post /\ lower mid = t.

(** *** Output Normalizer (4.4) *)

(** The normalized form of a label: lowercased, spaces to underscores. *)
Definition normalized (label : string) : string := replace " " "_" (lower label).

(** The lookup table, external style label to canonical key. *)
Definition label_table : list (string * string) :=
  [ ("Balanced and Detailed", "balanced");
    ("Summary", "summary");
    ("Educational", "educational");
    ("Narrative Rewriting", "narrative");
    ("Q&A Generation", "qa_generation") ].

Definition fallback_key (raw_label : string) : string :=
  replace "&" "and" (replace " " "_" (lower raw_label)).

(** First table entry, in table order, whose normalized label occurs in the
    normalized raw label; the fallback key when there is none. *)
Definition result_key (raw_label : string) : string :=
  match List.find (fun entry => str_in (normalized (fst entry))
                                       (normalized raw_label)) label_table with
  | Some entry => snd entry
  | None => fallback_key raw_label
  end.

(** The video title candidate and the raw style label of a file name (a
    stem): the first part, and the remaining parts rejoined. *)
Definition title_candidate (filename : string) : string :=
  hd EmptyString (split "_" filename).
Definition raw_label (filename : string) : string :=
  join "_" (tl (split "_" filename)).

(** *** Error Classifier (4.5) *)

Inductive Kind : Type := Validation | Timeout | Configuration | ExternalService.

(** The status code of each kind (7). *)
Definition kind_status (k : Kind) : Z :=
  match k with
  | Validation => 400
  | Timeout => 422
  | Configuration => 500
  | ExternalService => 502
  end.

Definition kind_of (e : PyExn) : option Kind :=
  match e with
  | VideoValidationError _ => Some Validation
  | ProcessingTimeoutError _ => Some Timeout
  | ConfigurationError _ => Some Configuration
  | ExternalServiceError _ => Some ExternalService
  | OtherException _ => None
  end.

(** The three conditions of the precedence list, on the message. *)
Definition says_unreachable (msg : string) : Prop :=
  contains_ci "invalid url" msg \/ contains_ci "not found" msg
  \/ contains_ci "unavailable" msg.
Definition says_timeout (msg : string) : Prop := contains_ci "timeout" msg.
Definition says_credentials (msg : string) : Prop :=
  contains_ci "api key" msg \/ contains_ci "authentication" msg.

(** *** URL Validator (4.1) *)

Fixpoint all_chars (p : ascii -> bool) (s : string) : bool :=
  match s with
  | EmptyString => true
  | String c s' => p c && all_chars p s'
  end.

Definition scheme (s : string) : Prop := s = "http" \/ s = "https".
Definition www (s : string) : Prop := s = EmptyString \/ s = "www.".
(** one or more word or hyphen characters *)
Definition video_id (s : string) : Prop :=
  s <> EmptyString /\ all_chars Re.word_or_hyphen s = true.
Definition one_line (s : string) : Prop := all_chars Re.not_newline s = true.

(** The five accepted shapes; [rest] is whatever follows the match. *)
Inductive accepted_url : string -> Prop :=
| shape_watch sch w id rest :
    scheme sch -> www w -> video_id id ->
    accepted_url (sch +:+ "://" +:+ w +:+ "youtube.com/watch?v=" +:+ id +:+ rest)
| shape_watch_params sch w params id rest :
    scheme sch -> www w -> one_line params -> video_id id ->
    accepted_url (sch +:+ "://" +:+ w +:+ "youtube.com/watch?" +:+ params
                  +:+ "v=" +:+ id +:+ rest)
| shape_short sch id rest :
    scheme sch -> video_id id ->
    accepted_url (sch +:+ "://youtu.be/" +:+ id +:+ rest)
| shape_embed sch w id rest :
    scheme sch -> www w -> video_id id ->
    accepted_url (sch +:+ "://" +:+ w +:+ "youtube.com/embed/" +:+ id +:+ rest)
| shape_v sch w id rest :
    scheme sch -> www w -> video_id id ->
    accepted_url (sch +:+ "://" +:+ w +:+ "youtube.com/v/" +:+ id +:+ rest).

(** *** Style Validator (4.2), static phase *)

Definition canonical_names : list string :=
  ["Summary"; "Educational"; "Balanced"; "QA Generation"; "Narrative"].

(** The names of a requested list that are outside the canonical five. *)
Definition invalid_names (styles : list string) : list string :=
  List.filter (fun s => negb (list_in s canonical_names)) styles.

(** *** Canonical style keys of the response *)

Definition canonical_keys : list string :=
  ["summary"; "educational"; "balanced"; "qa_generation"; "narrative"].

End Spec.

(* ===================================================================== *)
(** * A test double for the collaborators                                 *)
(* ===================================================================== *)

(** A stand-in for the outside world, in the manner of the mocks of
    tests/test_services.py: the service supports two styles; processing
    writes one file per requested style into the output directory (and one
    more, of a style of its own, when the URL asks for it), or raises when
    the URL asks for that. The state counts the calls made. *)
Module Mock.
Import PyStr Exceptions Outside Services.

Definition output_path (dir style : string) : string :=
  dir +:+ "/TestVideo_" +:+ style +:+ ".md".

Definition write_outputs (dir : string) (styles : list string)
    (fs : gmap string string) : gmap string string :=
  fold_right (fun s acc => <[output_path dir s := "About " +:+ s]> acc) fs styles.

Definition process_youtube_url (url output_dir : string) (styles : list string)
    (output_language : string) (x : nat) (fs : gmap string string)
  : nat * gmap string string * outcome (list string) :=
  if str_in "slow" url then (S x, fs, Raise (OtherException "Request timeout"))
  else if str_in "typed" url
  then (S x, fs, Raise (ProcessingTimeoutError "Processing timeout"))
  else if str_in "extra" url
  then (S x, write_outputs output_dir ("Key Points & Quotes" :: styles) fs,
        Return (map (output_path output_dir) ("Key Points & Quotes" :: styles)))
  else (S x, write_outputs output_dir styles fs,
        Return (map (output_path output_dir) styles)).

Definition collaborators : Collaborators := {|
  Ext := nat;
  Float := nat;
  DateTime := string;
  settings_OPENAI_API_KEY := Some "sk-test";
  api_init := fun _ => None;
  api_get_available_styles := fun x => (S x, Return ["Summary"; "Educational"]);
  api_process_youtube_url := process_youtube_url;
  time_time := fun x => x;
  round_elapsed := fun t1 t0 => (t1 - t0)%nat;
  now_isoformat := fun _ => "2026-01-01T00:00:00+00:00";
  mkdtemp := fun x => "/tmp/tmp" +:+ pretty x;
  url_validator := fun _ => true;
  parse_datetime := fun s => Some s
|}.

Definition world0 : @World collaborators := @mkWorld collaborators 0%nat ∅ ∅ [].

End Mock.

(* ===================================================================== *)
(** * exceptions.py: the exception handler                                *)
(* ===================================================================== *)

Module ExceptionHandler.
Import Exceptions.

Section Handler.
(** What a response of the framework carries beside its status code: its
    data, left abstract, and the rest of it (headers and the like). *)
Context {Data Rest : Type}.

(** [response.data]: the framework's own, or the dict
    [{"error": ..., "status_code": ...}] the handler puts in its place. *)
Inductive ResponseData : Type :=
| FrameworkData (d : Data)
| CustomData (error : string) (status_code : Z).

Record HandlerResponse : Type := mkHandlerResponse {
  data : ResponseData;
  response_status_code : Z;
  rest : Rest
}.

(** [rest_framework.views.exception_handler(exc, context)]: a response, or
    [None] for an exception the framework does not handle. *)
Variable exception_handler : PyExn -> option HandlerResponse.

(** [custom_exception_handler(exc, context)]. The instances of
    [VideoProcessorError] are the exceptions with a status code; assigning
    to an attribute of [None] raises [AttributeError]. *)
Definition custom_exception_handler (exc : PyExn)
  : outcome (option HandlerResponse) :=
  let response := exception_handler exc in
  match status_code exc with
  | Some code =>
      match response with
      | Some r =>
          Return (Some (mkHandlerResponse (CustomData (str exc) code) code (rest r)))
      | None =>
          Raise (OtherException "'NoneType' object has no attribute 'data'")
      end
  | None => Return response
  end.

End Handler.

End ExceptionHandler.

(* ===================================================================== *)
(** * tests/factories.py: the mock API response factory                   *)
(* ===================================================================== *)

Module Factories.
Import PyStr.

(** [MockGetOutVideoAPIResponseFactory.create_output_files]; [styles] is
    [None] when the argument is left out. *)
Definition create_output_files (temp_dir video_title : string)
    (styles : option (list string)) : list string :=
  let styles :=
    match styles with
    | None => ["Summary"; "Educational"; "Balanced_and_Detailed"]
    | Some l => l
    end in
  map (fun style =>
         let style_filename := replace "&" "and" (replace " " "_" style) in
         let filename := video_title +:+ "_" +:+ style_filename +:+ ".md" in
         temp_dir +:+ "/" +:+ filename)
      styles.

(** [MockGetOutVideoAPIResponseFactory.create_available_styles] *)
Definition create_available_styles : list string :=
  ["Summary"; "Educational"; "Balanced and Detailed"; "Narrative Rewriting";
   "Q&A Generation"].

End Factories.

(* ===================================================================== *)
(** * Notions used to state the properties                                *)
(* ===================================================================== *)

Module Notions.
Import PyStr Exceptions Outside Services.

(** A listed file contributes to the outcome of the Output Normalizer when
    it exists and its stem has the separator in it. *)
Definition contributes (files : gmap string string) (path : string) : bool :=
  match files !! path with
  | Some _ => str_in "_" (stem path)
  | None => false
  end.

(** The key and the title a contributing file stands for. *)
Definition key_of (path : string) : string :=
  Spec.result_key (Spec.raw_label (stem path)).
Definition title_of (path : string) : string :=
  Spec.title_candidate (stem path).

(** ASCII capital letters. *)
Definition is_upper (c : ascii) : bool :=
  let n := N_of_ascii c in (65 <=? n)%N && (n <=? 90)%N.

(** Characters of a result key: anything but a space, an ampersand or a
    capital letter. *)
Definition key_char (c : ascii) : bool :=
  negb (Ascii.eqb c " " || Ascii.eqb c "&" || is_upper c).


(** The status codes the view answers with. *)
Definition view_statuses : list Z := [200; 400; 422; 500; 502]%Z.

End Notions.

(** The test double without a configured API key. *)
Module MockUnconfigured.
Import Exceptions Outside Services.

Definition collaborators : Collaborators := {|
  Ext := nat;
  Float := nat;
  DateTime := string;
  settings_OPENAI_API_KEY := Some EmptyString;
  api_init := fun _ => None;
  api_get_available_styles := fun x => (S x, Return ["Summary"; "Educational"]);
  api_process_youtube_url := Mock.process_youtube_url;
  time_time := fun x => x;
  round_elapsed := fun t1 t0 => (t1 - t0)%nat;
  now_isoformat := fun _ => "2026-01-01T00:00:00+00:00";
  mkdtemp := fun x => "/tmp/tmp" +:+ pretty x;
  url_validator := fun _ => true;
  parse_datetime := fun s => Some s
|}.

Definition world0 : @World collaborators := @mkWorld collaborators 0%nat ∅ ∅ [].

End MockUnconfigured.

(** The test double whose catalogue of styles cannot be fetched. *)
Module MockCatalogueDown.
Import Exceptions Outside Services.

Definition collaborators : Collaborators := {|
  Ext := nat;
  Float := nat;
  DateTime := string;
  settings_OPENAI_API_KEY := Some "sk-test";
  api_init := fun _ => None;
  api_get_available_styles :=
    fun x => (S x, Raise (OtherException "Connection timeout"));
  api_process_youtube_url := Mock.process_youtube_url;
  time_time := fun x => x;
  round_elapsed := fun t1 t0 => (t1 - t0)%nat;
  now_isoformat := fun _ => "2026-01-01T00:00:00+00:00";
  mkdtemp := fun x => "/tmp/tmp" +:+ pretty x;
  url_validator := fun _ => true;
  parse_datetime := fun s => Some s
|}.

Definition world0 : @World collaborators := @mkWorld collaborators 0%nat ∅ ∅ [].

End MockCatalogueDown.

(* ===================================================================== *)
(** * Properties                                                          *)
(* ===================================================================== *)

Import PyStr Exceptions Outside Services Re Serializers Views.

(** ** The primitives on sample inputs *)

Example stem_examples :
  stem "/tmp/tmpab12/Foo_Summary.md" = "Foo_Summary"
  /\ stem "a.b/My_Video_Q&A Generation.tar.gz" = "My_Video_Q&A Generation.tar"
  /\ stem ".hidden" = ".hidden"
  /\ stem "x/trailing./" = "trailing.".
Proof. repeat split; reflexivity. Qed.

Example split_example :
  split "_" "a__b_" = ["a"; EmptyString; "b"; EmptyString]
  /\ split "_" "plain" = ["plain"].
Proof. split; reflexivity. Qed.

Example lower_replace_example :
  replace "&" "and" (replace " " "_" (lower "Key Points & Quotes [Z@`{]"))
  = "key_points_and_quotes_[z@`{]".
Proof. reflexivity. Qed.

Example strip_example :
  strip (String "009" " two words " +:+ String "010" EmptyString) = "two words".
Proof. reflexivity. Qed.

Example re_match_examples :
  re_match (cats [lit "ab"; opt (Chr "c"); plus (Cls is_word)]) "abcd!" = true
  /\ re_match (cats [lit "ab"; opt (Chr "c"); plus (Cls is_word)]) "ab!" = false.
Proof. split; reflexivity. Qed.

(** ** Text *)

Lemma sapp_nil_r (s : string) : s +:+ EmptyString = s.
Proof. induction s as [|c s IH]; [done|]. change (String c (s +:+ EmptyString) = String c s). by rewrite IH. Qed.

Lemma sapp_assoc (a b c : string) : (a +:+ b) +:+ c = a +:+ (b +:+ c).
Proof.
  induction a as [|x a IH]; [done|].
  change (String x ((a +:+ b) +:+ c) = String x (a +:+ b +:+ c)). by rewrite IH.
Qed.

Lemma sapp_cons (x : ascii) (a b : string) : String x a +:+ b = String x (a +:+ b).
Proof. done. Qed.

Lemma ascii_eqb_true (a b : ascii) : Ascii.eqb a b = true <-> a = b.
Proof. apply Ascii.eqb_eq. Qed.

Lemma startswith_spec (p s : string) :
  startswith p s = true <-> exists post, s = p +:+ post.
Proof.
  revert s. induction p as [|a p IH]; intros s; simpl.
  - split; [intros _; by exists s | done].
  - destruct s as [|b s].
    + split; [done | intros [post H]; discriminate H].
    + rewrite andb_true_iff, ascii_eqb_true, IH. split.
      * intros [-> [post ->]]. by exists post.
      * intros [post H]. rewrite sapp_cons in H. injection H as -> ->. eauto.
Qed.

Lemma str_in_spec (t s : string) : str_in t s = true <-> Spec.substring t s.
Proof.
  unfold Spec.substring. induction s as [|c s IH]; simpl.
  - rewrite orb_false_r, startswith_spec. split.
    + intros [post H]. by exists EmptyString, post.
    + intros [[|x pre] [post H]]; [by exists post|discriminate H].
  - rewrite orb_true_iff, startswith_spec, IH. split.
    + intros [[post H] | (pre & post & H)].
      * by exists EmptyString, post.
      * exists (String c pre), post. by rewrite H.
    + intros [[|x pre] [post H]].
      * left. by exists post.
      * right. rewrite sapp_cons in H. injection H as -> ->. by exists pre, post.
Qed.

Lemma lower_app (a b : string) : lower (a +:+ b) = lower a +:+ lower b.
Proof.
  induction a as [|x a IH]; [done|].
  rewrite sapp_cons. simpl. by rewrite IH.
Qed.

(** A split of the lowercased text comes from a split of the text. *)
Lemma lower_split (s u v : string) :
  lower s = u +:+ v -> exists a b, s = a +:+ b /\ lower a = u /\ lower b = v.
Proof.
  revert s. induction u as [|x u IH]; intros s H.
  - by exists EmptyString, s.
  - destruct s as [|c s]; [discriminate H|].
    simpl in H. rewrite sapp_cons in H. injection H as Hx H.
    destruct (IH _ H) as (a & b & -> & Ha & Hb).
    exists (String c a), b. simpl. by rewrite Hx, Ha.
Qed.

(** Searching the lowercased message is a search up to case. *)
Lemma str_in_lower_spec (t s : string) :
  str_in t (lower s) = true <-> Spec.contains_ci t s.
Proof.
  rewrite str_in_spec. unfold Spec.substring, Spec.contains_ci. split.
  - intros (pre & post & H).
    destruct (lower_split _ _ _ H) as (a & r & -> & Ha & Hr).
    destruct (lower_split _ _ _ Hr) as (m & b & -> & Hm & Hb).
    by exists a, m, b.
  - intros (pre & mid & post & -> & <-).
    exists (lower pre), (lower post). by rewrite !lower_app.
Qed.

(** ** Error Classifier *)

Lemma says_unreachable_iff (msg : string) :
  str_in "invalid url" (lower msg) || str_in "not found" (lower msg)
  || str_in "unavailable" (lower msg) = true <-> Spec.says_unreachable msg.
Proof.
  unfold Spec.says_unreachable.
  rewrite !orb_true_iff, !str_in_lower_spec. tauto.
Qed.

Lemma says_credentials_iff (msg : string) :
  str_in "api key" (lower msg) || str_in "authentication" (lower msg) = true
  <-> Spec.says_credentials msg.
Proof.
  unfold Spec.says_credentials. by rewrite orb_true_iff, !str_in_lower_spec.
Qed.

(** The classifier, decided condition by condition. *)
Lemma classifier_cases (e : PyExn) (video_url : string) :
  let msg := str e in
  let r := _handle_processing_error e video_url in
  (Spec.says_unreachable msg /\
     r = VideoValidationError ("Invalid or inaccessible video URL: " +:+ video_url))
  \/ (~ Spec.says_unreachable msg /\ Spec.says_timeout msg /\
     r = ProcessingTimeoutError "Video processing timed out")
  \/ (~ Spec.says_unreachable msg /\ ~ Spec.says_timeout msg /\
     Spec.says_credentials msg /\ r = ConfigurationError "API authentication failed")
  \/ (~ Spec.says_unreachable msg /\ ~ Spec.says_timeout msg /\
     ~ Spec.says_credentials msg /\
     r = ExternalServiceError ("External service error: " +:+ msg)).
Proof.
  intros msg r. subst r. unfold _handle_processing_error. fold msg.
  destruct (str_in "invalid url" (lower msg) || str_in "not found" (lower msg)
            || str_in "unavailable" (lower msg)) eqn:Hu.
  { left. split; [by apply says_unreachable_iff | done]. }
  assert (~ Spec.says_unreachable msg) as Hnu.
  { rewrite <- says_unreachable_iff. by rewrite Hu. }
  right. destruct (str_in "timeout" (lower msg)) eqn:Ht.
  { left. repeat split; [done | by apply str_in_lower_spec]. }
  assert (~ Spec.says_timeout msg) as Hnt.
  { unfold Spec.says_timeout. rewrite <- str_in_lower_spec. by rewrite Ht. }
  right. destruct (str_in "api key" (lower msg) || str_in "authentication" (lower msg)) eqn:Hc.
  { left. repeat split; [done | done | by apply says_credentials_iff]. }
  right. repeat split; [done | done |].
  rewrite <- says_credentials_iff. by rewrite Hc.
Qed.

(** C2. The Error Classifier searches the message up to case, in a fixed
    order of precedence: "invalid url", "not found" or "unavailable" give a
    Validation error (400) whose message refers to the video URL; failing
    that, "timeout" gives a Timeout error (422); failing that, "api key" or
    "authentication" gives a Configuration error (500); anything else gives an
    ExternalService error (502) whose message holds the original one. The
    four sample messages of the specification are classified as it says. *)
Theorem C2_error_classifier_precedence (e : PyExn) (video_url : string) :
  let msg := str e in
  let r := _handle_processing_error e video_url in
  (Spec.says_unreachable msg ->
     Spec.kind_of r = Some Spec.Validation
     /\ status_code r = Some (Spec.kind_status Spec.Validation)
     /\ Spec.substring video_url (str r))
  /\ (~ Spec.says_unreachable msg -> Spec.says_timeout msg ->
     Spec.kind_of r = Some Spec.Timeout
     /\ status_code r = Some (Spec.kind_status Spec.Timeout))
  /\ (~ Spec.says_unreachable msg -> ~ Spec.says_timeout msg ->
     Spec.says_credentials msg ->
     Spec.kind_of r = Some Spec.Configuration
     /\ status_code r = Some (Spec.kind_status Spec.Configuration))
  /\ (~ Spec.says_unreachable msg -> ~ Spec.says_timeout msg ->
     ~ Spec.says_credentials msg ->
     Spec.kind_of r = Some Spec.ExternalService
     /\ status_code r = Some (Spec.kind_status Spec.ExternalService)
     /\ Spec.substring msg (str r))
  /\ Spec.kind_of (_handle_processing_error (OtherException "Invalid URL provided") video_url)
     = Some Spec.Validation
  /\ Spec.kind_of (_handle_processing_error (OtherException "Request timeout") video_url)
     = Some Spec.Timeout
  /\ Spec.kind_of (_handle_processing_error
                     (OtherException "401 Unauthorized: bad api key") video_url)
     = Some Spec.Configuration
  /\ Spec.kind_of (_handle_processing_error (OtherException "Upstream 500") video_url)
     = Some Spec.ExternalService.
Proof.
  intros msg r.
  destruct (classifier_cases e video_url)
    as [[Hu Hr] | [(Hu & Ht & Hr) | [(Hu & Ht & Hc & Hr) | (Hu & Ht & Hc & Hr)]]];
    fold msg r in Hu, Hr |- *; rewrite Hr.
  all: repeat match goal with |- _ /\ _ => split end; try reflexivity;
       try tauto.
  - intros _. repeat split.
    exists "Invalid or inaccessible video URL: ", EmptyString.
    by rewrite sapp_nil_r.
  - intros _ _ _. repeat split.
    exists "External service error: ", EmptyString. by rewrite sapp_nil_r.
Qed.

Lemma C2_error_classifier_precedence_witness :
  Spec.kind_of (_handle_processing_error (OtherException "Video NOT Found") "https://youtu.be/x")
    = Some Spec.Validation
  /\ status_code (_handle_processing_error (OtherException "Video NOT Found") "https://youtu.be/x")
    = Some 400%Z
  /\ Spec.substring "https://youtu.be/x"
       (str (_handle_processing_error (OtherException "Video NOT Found") "https://youtu.be/x")).
Proof.
  apply (C2_error_classifier_precedence (OtherException "Video NOT Found") "https://youtu.be/x").
  right; left. exists "Video ", "NOT Found", EmptyString. split; reflexivity.
Defined.

(** ** Output Normalizer *)

Lemma split_nonempty (sep : ascii) (s : string) : split sep s <> [].
Proof.
  destruct s as [|c s]; simpl; [done|].
  destruct (Ascii.eqb c sep); [done|]. by destruct (split sep s).
Qed.

(** A name with the separator in it splits into two parts at least. *)
Lemma split_two_parts (sep : ascii) (s : string) :
  str_in (String sep EmptyString) s = true ->
  exists w1 w2 ws, split sep s = w1 :: w2 :: ws.
Proof.
  induction s as [|c s IH]; simpl; [done|].
  rewrite (Ascii.eqb_sym sep c), andb_true_r.
  destruct (Ascii.eqb c sep) eqn:Hc; simpl.
  - intros _. pose proof (split_nonempty sep s).
    destruct (split sep s) as [|w ws]; [done|]. by exists EmptyString, w, ws.
  - intros H. destruct (IH H) as (w1 & w2 & ws & ->). by exists (String c w1), w2, ws.
Qed.

(** A name without the separator is a single part. *)
Lemma split_one_part (sep : ascii) (s : string) :
  str_in (String sep EmptyString) s = false -> split sep s = [s].
Proof.
  induction s as [|c s IH]; simpl; [done|].
  rewrite (Ascii.eqb_sym sep c), andb_true_r.
  destruct (Ascii.eqb c sep); simpl; [done|].
  intros H. by rewrite (IH H).
Qed.

(** Joining the parts gives the name back. *)
Lemma join_split (sep : ascii) (s : string) :
  join (String sep EmptyString) (split sep s) = s.
Proof.
  induction s as [|c s IH]; [done|]. cbn [split].
  pose proof (split_nonempty sep s) as Hne.
  destruct (Ascii.eqb c sep) eqn:Hc.
  - apply Ascii.eqb_eq in Hc as ->.
    destruct (split sep s) as [|w ws]; [done|].
    change (join (String sep EmptyString) (EmptyString :: w :: ws))
      with (String sep EmptyString +:+ join (String sep EmptyString) (w :: ws)).
    by rewrite IH.
  - destruct (split sep s) as [|w ws]; [done|].
    destruct ws as [|w' ws]; cbn [join] in IH |- *; [by rewrite IH|].
    by rewrite sapp_cons, IH.
Qed.

(** No part holds the separator. *)
Lemma split_parts_clean (sep : ascii) (s : string) :
  Forall (fun w => str_in (String sep EmptyString) w = false) (split sep s).
Proof.
  induction s as [|c s IH]; cbn [split].
  - by apply Forall_cons.
  - pose proof (split_nonempty sep s) as Hne.
    destruct (Ascii.eqb c sep) eqn:Hc.
    + by apply Forall_cons.
    + destruct (split sep s) as [|w ws]; [done|].
      apply Forall_cons in IH as [Hw Hws]. apply Forall_cons. split; [|done].
      cbn. by rewrite (Ascii.eqb_sym sep c), Hc, Hw.
Qed.

(** A stem with the separator in it is its title candidate, the separator
    and its raw style label; the title candidate is what comes before the
    first separator. *)
Lemma stem_title_and_label (filename : string) :
  str_in "_" filename = true ->
  filename = Spec.title_candidate filename +:+ "_" +:+ Spec.raw_label filename
  /\ str_in "_" (Spec.title_candidate filename) = false.
Proof.
  intros Hsep. unfold Spec.title_candidate, Spec.raw_label.
  pose proof (join_split "_" filename) as Hjoin.
  pose proof (split_parts_clean "_" filename) as Hclean.
  destruct (split_two_parts "_" _ Hsep) as (w1 & w2 & ws & Hsplit).
  rewrite Hsplit in *. cbn [hd tl]. split.
  - by rewrite <- Hjoin at 1.
  - by apply Forall_cons in Hclean as [Hw1 _].
Qed.

(** The loop with its [break] is a search for the first entry that fits. *)
Lemma find_result_key_find (mapping : list (string * string)) (style : string) :
  find_result_key mapping style
  = snd <$> List.find (fun entry => str_in (Spec.normalized (fst entry))
                                           (Spec.normalized style)) mapping.
Proof.
  induction mapping as [|[api_style result_style] rest IH]; simpl; [done|].
  unfold Spec.normalized at 1 2. simpl.
  by destruct (str_in _ _).
Qed.

Lemma style_mapping_truthy (style : string) :
  truthy (find_result_key style_mapping style)
  = bool_decide (is_Some (find_result_key style_mapping style)).
Proof.
  unfold style_mapping. simpl.
  repeat (match goal with
          | |- context [if ?b then _ else _] => destruct b
          end; [done|]).
  done.
Qed.

(** The key under which the code stores a file's content is the key of the
    specification. *)
Lemma stored_key_spec (style : string) :
  (if truthy (find_result_key style_mapping style)
   then default EmptyString (find_result_key style_mapping style)
   else replace "&" "and" (replace " " "_" (lower style)))
  = Spec.result_key style.
Proof.
  rewrite style_mapping_truthy. unfold Spec.result_key.
  rewrite find_result_key_find.
  change Spec.label_table with style_mapping.
  by destruct (List.find _ style_mapping).
Qed.

Lemma parse_output_file_separator (files results : gmap string string)
    (title path content : string) :
  files !! path = Some content ->
  str_in "_" (stem path) = true ->
  parse_output_file files (results, title) path
  = (<[Spec.result_key (Spec.raw_label (stem path)) := content]> results,
     Spec.title_candidate (stem path)).
Proof.
  intros Hfile Hsep. unfold parse_output_file. rewrite Hfile, Hsep.
  unfold Spec.raw_label, Spec.title_candidate.
  destruct (split_two_parts "_" _ Hsep) as (w1 & w2 & ws & ->).
  cbn [length Nat.leb hd tl].
  rewrite <- stored_key_spec.
  by destruct (truthy _).
Qed.

Lemma parse_output_file_no_separator (files results : gmap string string)
    (title path : string) :
  str_in "_" (stem path) = false ->
  parse_output_file files (results, title) path = (results, title).
Proof.
  intros Hsep. unfold parse_output_file. rewrite Hsep. by destruct (files !! path).
Qed.

Lemma parse_output_file_missing (files results : gmap string string)
    (title path : string) :
  files !! path = None ->
  parse_output_file files (results, title) path = (results, title).
Proof. intros H. unfold parse_output_file. by rewrite H. Qed.

(** C1. For a file that exists and whose stem has the separator in it, the
    Output Normalizer stores the content under the key of the raw style
    label (the parts of the stem after the first, rejoined): the key of the
    first entry of the five-entry table, in table order, whose normalized
    label occurs in the normalized raw label, or else the raw label
    lowercased, with spaces replaced by underscores and the ampersand by
    the word and; the first part of the stem becomes the title. For the two
    files Foo_Summary.md with content A and Foo_Educational.md with content
    B, the result is the mapping of summary to A and educational to B, and
    the title Foo. *)
Theorem C1_output_normalizer_key_resolution :
  (forall (files results : gmap string string) (title path content : string),
     files !! path = Some content ->
     str_in "_" (stem path) = true ->
     parse_output_file files (results, title) path
     = (<[Spec.result_key (Spec.raw_label (stem path)) := content]> results,
        Spec.title_candidate (stem path)))
  /\ (forall (files : gmap string string) (A B : string),
     files !! "Foo_Summary.md" = Some A ->
     files !! "Foo_Educational.md" = Some B ->
     _parse_output_files files ["Foo_Summary.md"; "Foo_Educational.md"]
     = ({[ "summary" := A; "educational" := B ]}, "Foo")).
Proof.
  split; [apply parse_output_file_separator|].
  intros files A B HA HB. unfold _parse_output_files. cbn [fold_left].
  rewrite (parse_output_file_separator _ _ _ _ A HA eq_refl).
  rewrite (parse_output_file_separator _ _ _ _ B HB eq_refl).
  reflexivity.
Qed.

Lemma C1_output_normalizer_key_resolution_witness :
  parse_output_file {[ "/tmp/tmpx/My Talk_Q&A Generation.md" := "text" ]}
    ({[ "summary" := "old" ]}, "Unknown Title")
    "/tmp/tmpx/My Talk_Q&A Generation.md"
  = (<[ "qa_generation" := "text" ]> {[ "summary" := "old" ]}, "My Talk")
  /\ parse_output_file {[ "Talk_Key Points & Quotes.txt" := "text" ]}
    (∅, "Unknown Title") "Talk_Key Points & Quotes.txt"
  = ({[ "key_points_and_quotes" := "text" ]}, "Talk").
Proof.
  split.
  - apply (proj1 C1_output_normalizer_key_resolution
             {[ "/tmp/tmpx/My Talk_Q&A Generation.md" := "text" ]}
             {[ "summary" := "old" ]} "Unknown Title"
             "/tmp/tmpx/My Talk_Q&A Generation.md" "text");
      reflexivity.
  - apply (proj1 C1_output_normalizer_key_resolution
             {[ "Talk_Key Points & Quotes.txt" := "text" ]}
             ∅ "Unknown Title" "Talk_Key Points & Quotes.txt" "text");
      reflexivity.
Defined.

(** C7. A file whose stem has no separator in it is skipped: the results
    and the title are as before, and so the outcome of a whole run is the
    outcome of the run without that file. NoUnderscore.md is such a file. *)
Theorem C7_file_without_separator_is_skipped :
  (forall (files results : gmap string string) (title path : string),
     str_in "_" (stem path) = false ->
     parse_output_file files (results, title) path = (results, title))
  /\ (forall (files : gmap string string) (before after : list string)
             (path : string),
     str_in "_" (stem path) = false ->
     _parse_output_files files (before ++ path :: after)
     = _parse_output_files files (before ++ after))
  /\ (forall (files : gmap string string) (content : string),
     files !! "NoUnderscore.md" = Some content ->
     _parse_output_files files ["NoUnderscore.md"] = (∅, "Unknown Title")).
Proof.
  split; [apply parse_output_file_no_separator|]. split.
  - intros files before after path Hsep. unfold _parse_output_files.
    rewrite !fold_left_app. cbn [fold_left].
    destruct (fold_left _ before _) as [results title].
    by rewrite parse_output_file_no_separator.
  - intros files content _. unfold _parse_output_files. cbn [fold_left].
    by rewrite parse_output_file_no_separator.
Qed.

Lemma C7_file_without_separator_is_skipped_witness :
  parse_output_file {[ "/tmp/d/NoUnderscore.md" := "text" ]}
    ({[ "summary" := "kept" ]}, "Earlier") "/tmp/d/NoUnderscore.md"
  = ({[ "summary" := "kept" ]}, "Earlier").
Proof.
  apply (proj1 C7_file_without_separator_is_skipped
           {[ "/tmp/d/NoUnderscore.md" := "text" ]} {[ "summary" := "kept" ]}
           "Earlier" "/tmp/d/NoUnderscore.md").
  reflexivity.
Defined.

(** ** Style Validator, static phase *)

Lemma list_in_spec (x : string) (l : list string) : list_in x l = true <-> In x l.
Proof.
  unfold list_in. rewrite existsb_exists. split.
  - intros (y & Hy & Heq). apply String.eqb_eq in Heq. by subst.
  - intros H. exists x. split; [done | apply String.eqb_refl].
Qed.

(** The loop stops at the first name outside the valid set, and its
    message carries that name alone. *)
Lemma validate_styles_loop_first (value : list string) :
  match Spec.invalid_names value with
  | [] => validate_styles_loop value = None
  | bad :: _ =>
      exists pre post,
        value = pre ++ bad :: post
        /\ Forall (fun s => In s Spec.canonical_names) pre
        /\ ~ In bad Spec.canonical_names
        /\ validate_styles_loop value
           = Some ("Invalid style '" +:+ bad +:+ "'. Valid styles are: "
                   +:+ "Summary, Educational, Balanced, QA Generation, Narrative")
  end.
Proof.
  induction value as [|s value IH]; [done|].
  unfold Spec.invalid_names in *. cbn [List.filter validate_styles_loop].
  change Spec.canonical_names with valid_styles in *.
  destruct (list_in s valid_styles) eqn:Hs; cbn [negb].
  - destruct (List.filter _ value) as [|bad rest]; [done|].
    destruct IH as (pre & post & -> & Hpre & Hbad & Hloop).
    exists (s :: pre), post. split; [done|]. split; [|done].
    apply Forall_cons; split; [by apply list_in_spec | done].
  - exists [], value. split; [done|]. split; [apply Forall_nil; done|].
    split; [|done]. rewrite <- list_in_spec. by rewrite Hs.
Qed.

Lemma invalid_names_spec (styles : list string) (s : string) :
  In s (Spec.invalid_names styles) <-> In s styles /\ ~ In s Spec.canonical_names.
Proof.
  unfold Spec.invalid_names. rewrite filter_In, negb_true_iff.
  rewrite <- !list_in_spec.
  destruct (list_in s Spec.canonical_names); intuition congruence.
Qed.

(** C3, as the code has it. A requested list with a name outside the five
    canonical request-facing names fails the static phase with a Validation
    error that names the first such name, in list order, and the valid set;
    later invalid names are not reported. *)
Theorem C3_static_phase_names_first_invalid (value : list string) :
  (exists s, In s value /\ ~ In s Spec.canonical_names) ->
  exists pre bad post,
    value = pre ++ bad :: post
    /\ Forall (fun s => In s Spec.canonical_names) pre
    /\ ~ In bad Spec.canonical_names
    /\ validate_styles (Some value)
       = Invalid ("Invalid style '" +:+ bad +:+ "'. Valid styles are: "
                  +:+ "Summary, Educational, Balanced, QA Generation, Narrative").
Proof.
  intros (s & Hs). apply invalid_names_spec in Hs.
  pose proof (validate_styles_loop_first value) as H.
  destruct (Spec.invalid_names value) as [|bad rest]; [destruct Hs|].
  destruct H as (pre & post & Hv & Hpre & Hbad & Hloop).
  exists pre, bad, post. unfold validate_styles. by rewrite Hloop.
Qed.

Lemma C3_static_phase_names_first_invalid_witness :
  exists pre bad post,
    ["Summary"; "Foo"; "Narrative"; "Bar"] = pre ++ bad :: post
    /\ Forall (fun s => In s Spec.canonical_names) pre
    /\ ~ In bad Spec.canonical_names
    /\ validate_styles (Some ["Summary"; "Foo"; "Narrative"; "Bar"])
       = Invalid ("Invalid style '" +:+ bad +:+ "'. Valid styles are: "
                  +:+ "Summary, Educational, Balanced, QA Generation, Narrative").
Proof.
  apply (C3_static_phase_names_first_invalid ["Summary"; "Foo"; "Narrative"; "Bar"]).
  exists "Bar". split.
  - simpl. tauto.
  - intros H. apply list_in_spec in H. vm_compute in H. discriminate H.
Defined.

(** The claim as the specification words it fails: with two invalid names
    requested, the error does not list the second. *)
Lemma C3_static_phase_lists_all_invalid_counterexample :
  ~ (forall styles : list string,
       (exists s, In s styles /\ ~ In s Spec.canonical_names) ->
       exists detail,
         validate_styles (Some styles) = Invalid detail
         /\ forall s, In s styles -> ~ In s Spec.canonical_names ->
                      Spec.substring s detail).
Proof.
  assert (~ In "Bar" Spec.canonical_names) as Hbar.
  { intros H. apply list_in_spec in H. vm_compute in H. discriminate H. }
  intros H. destruct (H ["Foo"; "Bar"]) as (detail & Hd & Hall).
  { exists "Bar". split; [simpl; tauto | exact Hbar]. }
  vm_compute in Hd. injection Hd as <-.
  specialize (Hall "Bar" ltac:(right; left; reflexivity) Hbar).
  apply str_in_spec in Hall. vm_compute in Hall. discriminate Hall.
Qed.

(** ** Regular expressions: the matcher finds exactly the matching prefixes *)

Lemma sapp_eq_nil (u v : string) :
  u +:+ v = EmptyString -> u = EmptyString /\ v = EmptyString.
Proof. destruct u; [done | discriminate]. Qed.

Lemma sapp_eq_cons (u v : string) (a : ascii) (s : string) :
  u +:+ v = String a s ->
  (u = EmptyString /\ v = String a s) \/ (exists u', u = String a u' /\ s = u' +:+ v).
Proof.
  destruct u as [|b u]; [by left|].
  rewrite sapp_cons. intros [= -> <-]. right. by exists u.
Qed.

Lemma nullable_spec (r : regex) : nullable r = true <-> matches r EmptyString.
Proof.
  split.
  - induction r; simpl; intros H; try discriminate H.
    + constructor.
    + apply andb_true_iff in H as [H1 H2].
      change EmptyString with (EmptyString +:+ EmptyString). constructor; auto.
    + apply orb_true_iff in H as [H|H]; [apply MAltL | apply MAltR]; auto.
    + constructor.
  - intros H. remember EmptyString as w eqn:Hw.
    induction H; simpl; try discriminate Hw; try reflexivity.
    + apply sapp_eq_nil in Hw as [-> ->]. rewrite IHmatches1, IHmatches2; done.
    + by rewrite IHmatches.
    + rewrite IHmatches; [apply orb_true_r | done].
Qed.

Lemma deriv_complete (r : regex) (w : string) :
  matches r w -> forall a s, w = String a s -> matches (deriv a r) s.
Proof.
  induction 1 as [ | c | p c Hp | r1 r2 u v H1 IH1 H2 IH2 | r1 r2 u H IH
                 | r1 r2 u H IH | r | r u v H1 IH1 H2 IH2 ];
    intros a s Hw; simpl.
  - discriminate Hw.
  - injection Hw as <- <-. rewrite Ascii.eqb_refl. constructor.
  - injection Hw as <- <-. rewrite Hp. constructor.
  - apply sapp_eq_cons in Hw as [[-> ->] | (u' & -> & ->)].
    + apply nullable_spec in H1. rewrite H1. apply MAltR. by apply IH2.
    + assert (matches (Cat (deriv a r1) r2) (u' +:+ v)) as Hc.
      { constructor; [by apply IH1 | done]. }
      destruct (nullable r1); [by apply MAltL | done].
  - apply MAltL. by apply IH.
  - apply MAltR. by apply IH.
  - discriminate Hw.
  - apply sapp_eq_cons in Hw as [[-> ->] | (u' & -> & ->)].
    + by apply IH2.
    + constructor; [by apply IH1 | done].
Qed.

Lemma deriv_sound (r : regex) (a : ascii) (s : string) :
  matches (deriv a r) s -> matches r (String a s).
Proof.
  revert s. induction r as [ | | c | p | r1 IH1 r2 IH2 | r1 IH1 r2 IH2 | r IH ];
    intros s H; simpl in H.
  - inversion H.
  - inversion H.
  - destruct (Ascii.eqb a c) eqn:Hac; [|inversion H].
    apply Ascii.eqb_eq in Hac as ->. inversion H; subst. constructor.
  - destruct (p a) eqn:Hp; [|inversion H]. inversion H; subst. by constructor.
  - assert (forall t, matches (Cat (deriv a r1) r2) t -> matches (Cat r1 r2) (String a t))
      as Hcat.
    { intros t Ht. inversion Ht as [ | | | ? ? u v Hu Hv | | | | ]; subst.
      rewrite <- sapp_cons. constructor; [by apply IH1 | done]. }
    destruct (nullable r1) eqn:Hn; [|by apply Hcat].
    inversion H as [ | | | | ? ? ? Hl | ? ? ? Hr | | ]; subst; [by apply Hcat|].
    change (String a s) with (EmptyString +:+ String a s).
    constructor; [by apply nullable_spec | by apply IH2].
  - inversion H as [ | | | | ? ? ? Hl | ? ? ? Hr | | ]; subst.
    + apply MAltL. by apply IH1.
    + apply MAltR. by apply IH2.
  - inversion H as [ | | | ? ? u v Hu Hv | | | | ]; subst.
    rewrite <- sapp_cons. constructor; [by apply IH | done].
Qed.

(** [re.match] succeeds exactly when some prefix of the text is a word of
    the pattern. *)
Theorem re_match_spec (r : regex) (s : string) :
  re_match r s = true <-> exists p rest, s = p +:+ rest /\ matches r p.
Proof.
  revert r. induction s as [|a s IH]; intros r; simpl.
  - rewrite orb_false_r, nullable_spec. split.
    + intros H. by exists EmptyString, EmptyString.
    + intros (p & rest & Hs & Hp). symmetry in Hs.
      apply sapp_eq_nil in Hs as [-> _]. done.
  - rewrite orb_true_iff, nullable_spec, IH. split.
    + intros [H | (p & rest & -> & Hp)].
      * by exists EmptyString, (String a s).
      * exists (String a p), rest. split; [done | by apply deriv_sound].
    + intros (p & rest & Hs & Hp). symmetry in Hs.
      apply sapp_eq_cons in Hs as [[-> _] | (p' & -> & ->)]; [by left|].
      right. exists p', rest. split; [done|]. by eapply deriv_complete.
Qed.

(** ** The words of the URL patterns *)

Lemma matches_cat_iff (r1 r2 : regex) (w : string) :
  matches (Cat r1 r2) w <-> exists u v, w = u +:+ v /\ matches r1 u /\ matches r2 v.
Proof.
  split.
  - inversion 1; subst. eauto.
  - intros (u & v & -> & Hu & Hv). by constructor.
Qed.

Lemma matches_alt_iff (r1 r2 : regex) (w : string) :
  matches (Alt r1 r2) w <-> matches r1 w \/ matches r2 w.
Proof.
  split.
  - inversion 1; subst; auto.
  - intros [H|H]; [by apply MAltL | by apply MAltR].
Qed.

Lemma matches_eps_iff (w : string) : matches Eps w <-> w = EmptyString.
Proof. split; [by inversion 1 | intros ->; constructor]. Qed.

Lemma matches_chr_iff (c : ascii) (w : string) :
  matches (Chr c) w <-> w = String c EmptyString.
Proof. split; [by inversion 1 | intros ->; constructor]. Qed.

Lemma matches_cls_iff (p : ascii -> bool) (w : string) :
  matches (Cls p) w <-> exists c, w = String c EmptyString /\ p c = true.
Proof.
  split.
  - inversion 1; subst. eauto.
  - intros (c & -> & Hc). by constructor.
Qed.

Lemma matches_lit_iff (t w : string) : matches (lit t) w <-> w = t.
Proof.
  revert w. induction t as [|c t IH]; intros w; simpl.
  - apply matches_eps_iff.
  - rewrite matches_cat_iff. split.
    + intros (u & v & -> & Hu & Hv). apply matches_chr_iff in Hu as ->.
      apply IH in Hv as ->. done.
    + intros ->. exists (String c EmptyString), t.
      split; [done|]. split; [constructor | by apply IH].
Qed.

Lemma matches_lit_cat_iff (t : string) (r : regex) (w : string) :
  matches (Cat (lit t) r) w <-> exists v, w = t +:+ v /\ matches r v.
Proof.
  rewrite matches_cat_iff. split.
  - intros (u & v & -> & Hu & Hv). apply matches_lit_iff in Hu as ->. eauto.
  - intros (v & -> & Hv). exists t, v. by rewrite matches_lit_iff.
Qed.

Lemma matches_caret_cat_iff (r : regex) (w : string) :
  matches (Cat caret r) w <-> matches r w.
Proof.
  rewrite matches_cat_iff. unfold caret. split.
  - intros (u & v & -> & Hu & Hv). by apply matches_eps_iff in Hu as ->.
  - intros H. exists EmptyString, w. split; [done|]. split; [constructor | done].
Qed.

Lemma matches_opt_cat_iff (r1 r2 : regex) (w : string) :
  matches (Cat (opt r1) r2) w <-> matches r2 w \/ matches (Cat r1 r2) w.
Proof.
  rewrite !matches_cat_iff. unfold opt. split.
  - intros (u & v & -> & Hu & Hv). apply matches_alt_iff in Hu as [Hu|Hu].
    + right. eauto.
    + apply matches_eps_iff in Hu as ->. by left.
  - intros [H | (u & v & -> & Hu & Hv)].
    + exists EmptyString, w. split; [done|]. split; [|done].
      apply MAltR. constructor.
    + exists u, v. split; [done|]. split; [by apply MAltL | done].
Qed.

Lemma all_chars_app (p : ascii -> bool) (u v : string) :
  Spec.all_chars p (u +:+ v) = Spec.all_chars p u && Spec.all_chars p v.
Proof.
  induction u as [|c u IH]; [done|].
  rewrite sapp_cons. simpl. by rewrite IH, andb_assoc.
Qed.

Lemma matches_star_cls_iff (p : ascii -> bool) (w : string) :
  matches (Star (Cls p)) w <-> Spec.all_chars p w = true.
Proof.
  split.
  - intros H. remember (Star (Cls p)) as r eqn:Hr.
    induction H as [ | | | | | | | r u v H1 _ H2 IH2 ]; try discriminate Hr;
      [done|].
    injection Hr as ->. apply matches_cls_iff in H1 as (c & -> & Hc).
    rewrite sapp_cons. simpl. rewrite Hc. by apply IH2.
  - induction w as [|c w IH]; simpl; [constructor|].
    intros [Hc Hw]%andb_true_iff.
    change (String c w) with (String c EmptyString +:+ w).
    constructor; [by constructor | by apply IH].
Qed.

(** The identifier: one or more word or hyphen characters. *)
Lemma matches_youtube_id_iff (w : string) :
  matches youtube_id w <-> Spec.video_id w.
Proof.
  unfold youtube_id, plus, Spec.video_id. rewrite matches_cat_iff. split.
  - intros (u & v & -> & Hu & Hv).
    apply matches_cls_iff in Hu as (c & -> & Hc).
    apply matches_star_cls_iff in Hv. rewrite sapp_cons.
    split; [done|]. change (EmptyString +:+ v) with v.
    cbn [Spec.all_chars]. by rewrite Hc, Hv.
  - intros [Hne Hall]. destruct w as [|c w]; [done|].
    cbn [Spec.all_chars] in Hall. apply andb_true_iff in Hall as [Hc Hw].
    exists (String c EmptyString), w. split; [done|].
    split; [by constructor | by apply matches_star_cls_iff].
Qed.

(** [^https?] and what follows it. *)
Lemma matches_scheme_iff (tail : regex) (w : string) :
  matches (Cat caret (Cat (lit "http") (Cat (opt (Chr "s")) tail))) w
  <-> exists sch t, Spec.scheme sch /\ w = sch +:+ t /\ matches tail t.
Proof.
  rewrite matches_caret_cat_iff, matches_lit_cat_iff.
  setoid_rewrite matches_opt_cat_iff. unfold Spec.scheme. split.
  - intros (v & -> & [H | H]).
    + exists "http", v. auto.
    + apply matches_cat_iff in H as (u & t & -> & Hu & Ht).
      apply matches_chr_iff in Hu as ->. exists "https", t. auto.
  - intros (sch & t & [-> | ->] & -> & Ht).
    + exists t. auto.
    + exists ("s" +:+ t). split; [done|]. right.
      apply matches_cat_iff. exists "s", t. split; [done|]. split; [constructor|done].
Qed.

(** [^https?://(www\\.)?] and what follows it. *)
Lemma matches_host_iff (tail : regex) (w : string) :
  matches (Cat caret (Cat (lit "http") (Cat (opt (Chr "s"))
             (Cat (lit "://") (Cat (opt (lit "www.")) tail))))) w
  <-> exists sch h t, Spec.scheme sch /\ Spec.www h
                      /\ w = sch +:+ "://" +:+ h +:+ t /\ matches tail t.
Proof.
  rewrite matches_scheme_iff. unfold Spec.www. split.
  - intros (sch & t0 & Hsch & -> & H).
    apply matches_lit_cat_iff in H as (t1 & -> & H).
    apply matches_opt_cat_iff in H as [H | H].
    + exists sch, EmptyString, t1. auto.
    + apply matches_lit_cat_iff in H as (t & -> & H).
      exists sch, "www.", t. auto.
  - intros (sch & h & t & Hsch & Hh & -> & Ht).
    exists sch, ("://" +:+ h +:+ t). split; [done|]. split; [done|].
    apply matches_lit_cat_iff. exists (h +:+ t). split; [done|].
    apply matches_opt_cat_iff. destruct Hh as [-> | ->]; [by left | right].
    apply matches_lit_cat_iff. by exists t.
Qed.

(** ** URL Validator *)

Lemma matches_id_tail_iff (t w : string) :
  matches (Cat (lit t) youtube_id) w <-> exists id, Spec.video_id id /\ w = t +:+ id.
Proof.
  rewrite matches_lit_cat_iff. setoid_rewrite matches_youtube_id_iff.
  split; intros (id & H1 & H2); eauto.
Qed.

(** Some pattern of the list matches at the start of the text exactly when
    the text has one of the five accepted shapes. *)
Lemma youtube_patterns_spec (s : string) :
  existsb (fun pattern => re_match pattern s) youtube_patterns = true
  <-> Spec.accepted_url s.
Proof.
  rewrite existsb_exists. split.
  - intros (pattern & Hin & Hm).
    apply re_match_spec in Hm as (p & rest & -> & Hp).
    unfold youtube_patterns in Hin. cbn [In] in Hin.
    destruct Hin as [<- | [<- | [<- | [<- | [<- | []]]]]]; cbn [cats] in Hp.
    + apply matches_host_iff in Hp as (sch & h & t & Hsch & Hh & -> & Ht).
      apply matches_id_tail_iff in Ht as (id & Hid & ->).
      rewrite !sapp_assoc. by constructor.
    + apply matches_host_iff in Hp as (sch & h & t & Hsch & Hh & -> & Ht).
      apply matches_lit_cat_iff in Ht as (t1 & -> & Ht).
      apply matches_cat_iff in Ht as (params & t2 & -> & Hparams & Ht).
      apply matches_star_cls_iff in Hparams.
      apply matches_id_tail_iff in Ht as (id & Hid & ->).
      rewrite !sapp_assoc. by apply Spec.shape_watch_params.
    + apply matches_scheme_iff in Hp as (sch & t & Hsch & -> & Ht).
      apply matches_id_tail_iff in Ht as (id & Hid & ->).
      rewrite !sapp_assoc. by apply Spec.shape_short.
    + apply matches_host_iff in Hp as (sch & h & t & Hsch & Hh & -> & Ht).
      apply matches_id_tail_iff in Ht as (id & Hid & ->).
      rewrite !sapp_assoc. by apply Spec.shape_embed.
    + apply matches_host_iff in Hp as (sch & h & t & Hsch & Hh & -> & Ht).
      apply matches_id_tail_iff in Ht as (id & Hid & ->).
      rewrite !sapp_assoc. by apply Spec.shape_v.
  - intros Hs.
    destruct Hs as [sch h id rest Hsch Hh Hid | sch h params id rest Hsch Hh Hparams Hid
                   | sch id rest Hsch Hid | sch h id rest Hsch Hh Hid
                   | sch h id rest Hsch Hh Hid].
    + eexists. split; [left; reflexivity|]. apply re_match_spec.
      exists (sch +:+ "://" +:+ h +:+ "youtube.com/watch?v=" +:+ id), rest.
      split; [by rewrite !sapp_assoc|]. cbn [cats].
      apply matches_host_iff. exists sch, h, ("youtube.com/watch?v=" +:+ id).
      repeat (split; [done|]). apply matches_id_tail_iff. eauto.
    + eexists. split; [right; left; reflexivity|]. apply re_match_spec.
      exists (sch +:+ "://" +:+ h +:+ "youtube.com/watch?" +:+ params +:+ "v=" +:+ id), rest.
      split; [by rewrite !sapp_assoc|]. cbn [cats].
      apply matches_host_iff.
      exists sch, h, ("youtube.com/watch?" +:+ params +:+ "v=" +:+ id).
      repeat (split; [done|]). apply matches_lit_cat_iff.
      exists (params +:+ "v=" +:+ id). split; [done|].
      apply matches_cat_iff. exists params, ("v=" +:+ id). split; [done|].
      split; [by apply matches_star_cls_iff|]. apply matches_id_tail_iff. eauto.
    + eexists. split; [do 2 right; left; reflexivity|]. apply re_match_spec.
      exists (sch +:+ "://youtu.be/" +:+ id), rest.
      split; [by rewrite !sapp_assoc|]. cbn [cats].
      apply matches_scheme_iff. exists sch, ("://youtu.be/" +:+ id).
      repeat (split; [done|]). apply matches_id_tail_iff. eauto.
    + eexists. split; [do 3 right; left; reflexivity|]. apply re_match_spec.
      exists (sch +:+ "://" +:+ h +:+ "youtube.com/embed/" +:+ id), rest.
      split; [by rewrite !sapp_assoc|]. cbn [cats].
      apply matches_host_iff. exists sch, h, ("youtube.com/embed/" +:+ id).
      repeat (split; [done|]). apply matches_id_tail_iff. eauto.
    + eexists. split; [do 4 right; left; reflexivity|]. apply re_match_spec.
      exists (sch +:+ "://" +:+ h +:+ "youtube.com/v/" +:+ id), rest.
      split; [by rewrite !sapp_assoc|]. cbn [cats].
      apply matches_host_iff. exists sch, h, ("youtube.com/v/" +:+ id).
      repeat (split; [done|]). apply matches_id_tail_iff. eauto.
Qed.

(** C5. A text that has one of the five accepted shapes, whatever follows
    the identifier, is returned unchanged by the URL Validator; any other
    text fails with a validation error. *)
Theorem C5_url_validator_accepts_the_five_shapes (value : string) :
  (Spec.accepted_url value -> validate_video_url value = Valid value)
  /\ (~ Spec.accepted_url value ->
      exists detail, validate_video_url value = Invalid detail).
Proof.
  unfold validate_video_url.
  destruct (existsb _ youtube_patterns) eqn:Hm; cbn [negb].
  - split; [done|]. intros Hn. exfalso. apply Hn. by apply youtube_patterns_spec.
  - split; [|by eauto]. intros Ha. apply youtube_patterns_spec in Ha.
    rewrite Ha in Hm. discriminate Hm.
Qed.

Lemma C5_url_validator_accepts_the_five_shapes_witness :
  validate_video_url "https://youtu.be/abc-123_x and then anything"
  = Valid "https://youtu.be/abc-123_x and then anything"
  /\ exists detail, validate_video_url "https://www.youtu.be/abc123" = Invalid detail.
Proof.
  split.
  - apply (proj1 (C5_url_validator_accepts_the_five_shapes
                    "https://youtu.be/abc-123_x and then anything")).
    apply (Spec.shape_short "https" "abc-123_x" " and then anything").
    + right. reflexivity.
    + split; [discriminate | reflexivity].
  - apply (proj2 (C5_url_validator_accepts_the_five_shapes
                    "https://www.youtu.be/abc123")).
    intros H. apply youtube_patterns_spec in H. vm_compute in H. discriminate H.
Defined.

(** ** Processing Orchestrator *)

Section Orchestrator.
Context {C : Collaborators}.

(** Running the service: unfold the computations and follow every way the
    external calls can come out. *)
Ltac unfold_run :=
  unfold process_video, process_video_try, process_video_except,
    _validate_styles, get_available_styles, with_TemporaryDirectory,
    TemporaryDirectory_enter, finally, try_except,
    api_call_get_available_styles, api_call_process_youtube_url, read,
    mbind, M_bind, bind, ret, raise in *.

Ltac case_api :=
  repeat match goal with
    | |- context [api_get_available_styles ?x] =>
        let r := fresh "fetched" in
        let e := fresh "e" in
        destruct (api_get_available_styles x) as [? [r|e]] eqn:?; cbn
    | |- context [api_process_youtube_url ?u ?d ?s ?l ?x ?f] =>
        let r := fresh "output_files" in
        let e := fresh "e" in
        destruct (api_process_youtube_url u d s l x f) as [[? ?] [r|e]] eqn:?; cbn
    | |- context [List.filter ?f ?l] =>
        destruct (List.filter f l) eqn:?; cbn
    | |- context [match ?e with VideoValidationError _ => _ | _ => _ end] =>
        is_var e; destruct e; cbn
    end.

Ltac prefix_events :=
  first [ exists []; split; [reflexivity|]
        | eexists [_]; split; [reflexivity|]
        | eexists [_; _]; split; [reflexivity|]
        | eexists [_; _; _]; split; [reflexivity|]
        | eexists [_; _; _; _]; split; [reflexivity|]
        | eexists [_; _; _; _; _]; split; [reflexivity|] ].

(** Sets of temporary directories across [__enter__] and [__exit__]. *)
Lemma tempdir_gone (d : string) (T : gset string) : d ∉ ({[ d ]} ∪ T) ∖ {[ d ]}.
Proof.
  intros [_ Hne]%elem_of_difference. by apply Hne, elem_of_singleton.
Qed.

Lemma tempdir_old (d d' : string) (T : gset string) :
  d' ∈ ({[ d ]} ∪ T) ∖ {[ d ]} -> d' ∈ T.
Proof.
  intros [[Hd | Hd]%elem_of_union Hne]%elem_of_difference; done.
Qed.

(** What [cleanup()] leaves behind. *)
Lemma cleanup_removes_files (d : string) (fs : gmap string string) (path : string) :
  inside d path = true ->
  filter (fun kv : string * string => inside d (fst kv) = false) fs !! path = None.
Proof.
  intros Hin. apply map_lookup_filter_None. right.
  intros content _. cbn. by rewrite Hin.
Qed.

(** C8. Whatever way a call to the Orchestrator's process operation ends,
    a temporary directory it acquired has been removed, with all the files
    in it, by the time the call returns or its exception propagates (the
    removal is the last thing the call does): this holds for a successful
    return and for a failure of the external service alike (a call that
    fails style validation has acquired none). A
    successful call did acquire one, the directory handed to the external
    service as output target is one the call acquired, and no temporary
    directory exists after the call that did not exist before it. *)
Theorem C8_temporary_directory_removed_on_every_exit
    (url : string) (styles : option (list string)) (lang : string)
    (w w' : World) (r : outcome ProcessingResult) :
  process_video url styles lang w = (w', r) ->
  exists new,
    events w' = new ++ events w
    /\ (forall d, In (TempDirCreated d) new ->
          (exists earlier, new = TempDirRemoved d :: earlier)
          /\ (d ∉ tempdirs w')
          /\ (forall path, inside d path = true -> files w' !! path = None))
    /\ (forall res, r = Return res -> exists d, In (TempDirCreated d) new)
    /\ (forall u d requested language,
          In (ApiProcessYoutubeUrl u d requested language) new ->
          In (TempDirCreated d) new)
    /\ (forall d, d ∈ tempdirs w' -> d ∈ tempdirs w).
Proof.
  unfold_run. destruct styles as [l|]; cbn; case_api.
  all: intros Hrun; injection Hrun as <- <-; cbn.
  all: prefix_events.
  all: split; [|split; [|split]].
  all: try (intros u d requested language Hin; cbn [In] in Hin |- *;
            destruct_or!; simplify_eq; auto; fail).
  all: try (intros res Hres; simplify_eq; eexists; cbn [In]; eauto 6; fail).
  all: try (intros res Hres; discriminate Hres).
  all: try (intros d Hd; by apply tempdir_old in Hd).
  all: try (intros d Hd; exact Hd).
  all: intros d Hd; cbn [In] in Hd; destruct_or!; simplify_eq.
  all: split; [by eexists|].
  all: split; [apply tempdir_gone | apply cleanup_removes_files].
Qed.

(** C6. An exception that reaches the [except] clauses of the process
    operation already typed as one of the four categorised errors leaves the
    operation as it is, in the same world: it is neither classified again nor
    wrapped. Any other exception leaves the operation as the Error
    Classifier's verdict on it, which is a categorised error; such an
    exception can only have been raised by the external processing call
    (what the styles call raises has been turned into an ExternalService
    error by [get_available_styles] before it gets there). *)
Theorem C6_categorized_errors_propagate_unchanged
    (url : string) (styles : option (list string)) (lang : string)
    (w w' : World) (e : PyExn) :
  process_video_try (time_time (ext w)) url styles lang w = (w', Raise e) ->
  (categorized e = true ->
     process_video url styles lang w = (w', Raise e))
  /\ (categorized e = false ->
     process_video url styles lang w
     = (w', Raise (_handle_processing_error e url))
     /\ categorized (_handle_processing_error e url) = true
     /\ exists d requested x fs x' fs',
          api_process_youtube_url url d requested lang x fs = (x', fs', Raise e)).
Proof.
  intros Htry. split; intros He.
  - unfold process_video, try_except, read, mbind, M_bind, bind. rewrite Htry.
    by destruct e.
  - split; [|split].
    + unfold process_video, try_except, read, mbind, M_bind, bind. rewrite Htry.
      by destruct e.
    + unfold _handle_processing_error.
      by repeat match goal with |- context [if ?b then _ else _] => destruct b end.
    + revert Htry. unfold_run. destruct styles as [l|]; cbn; case_api.
      all: intros Htry; simplify_eq; try discriminate He.
      all: by repeat eexists.
Qed.

(** C4. When the styles argument is absent, the Orchestrator first fetches
    the supported styles from the external service (and fails as the fetch
    fails), and the call goes on exactly as a call that had been given the
    fetched list: every processing request it sends to the external service
    carries that list, a successful call has sent one, and its
    metadata.styles_processed is that list. *)
Theorem C4_absent_styles_request_all_supported
    (url lang : string) (w : World) :
  (forall w1 e,
     get_available_styles w = (w1, Raise e) ->
     process_video url None lang w = (w1, Raise e))
  /\ (forall w1 fetched,
     get_available_styles w = (w1, Return fetched) ->
     (forall t0, process_video_try t0 url None lang w
                 = process_video_try t0 url (Some fetched) lang w1)
     /\ forall w' r,
          process_video url None lang w = (w', r) ->
          (forall res, r = Return res -> styles_processed (metadata res) = fetched)
          /\ exists new,
               events w' = new ++ ApiGetAvailableStyles :: events w
               /\ (forall u d requested language,
                     In (ApiProcessYoutubeUrl u d requested language) new ->
                     u = url /\ requested = fetched /\ language = lang)
               /\ (forall res, r = Return res ->
                     exists d, In (ApiProcessYoutubeUrl url d fetched lang) new)).
Proof.
  split.
  - intros w1 e. unfold_run. cbn. case_api.
    all: intros Hfetch; by simplify_eq.
  - intros w1 fetched Hfetch. split.
    + intros t0. unfold process_video_try, mbind, M_bind, bind at 1.
      by rewrite Hfetch.
    + intros w' r. revert Hfetch. unfold_run. cbn. case_api.
      all: intros Hfetch Hrun; simplify_eq; cbn.
      all: (split; [intros res Hres; by simplify_eq|]).
      all: prefix_events.
      all: split; [intros u d requested language Hin; cbn [In] in Hin;
                   destruct_or!; by simplify_eq|].
      all: intros res Hres; simplify_eq; eexists; cbn [In]; eauto.
Qed.

(** C10. A request whose styles field is present and empty validates to an
    empty list, and one without the field to no list at all. Given an empty
    list, the Orchestrator fetches the supported styles once only, for the
    dynamic validation, which passes for lack of anything to reject (the
    validation of an empty list can only fail as the fetch itself fails); the
    external service is then asked to process with an empty style list, and a
    successful call reports an empty styles_processed. A list that was given
    is never replaced: only the absent argument is. *)
Theorem C10_empty_style_list_is_not_substituted :
  (forall (data : RequestData) (v : ValidatedRequest),
     rd_styles data = Some [] ->
     VideoProcessRequestSerializer data = inr v -> vd_styles v = Some [])
  /\ (forall (data : RequestData) (v : ValidatedRequest),
     rd_styles data = None ->
     VideoProcessRequestSerializer data = inr v -> vd_styles v = None)
  /\ (forall (url lang : string) (w w1 : World) (available : list string),
     get_available_styles w = (w1, Return available) ->
     _validate_styles [] w = (w1, Return tt)
     /\ forall w' r,
          process_video url (Some []) lang w = (w', r) ->
          (exists d,
             events w'
             = [TempDirRemoved d; ApiProcessYoutubeUrl url d [] lang;
                TempDirCreated d; ApiGetAvailableStyles] ++ events w)
          /\ (forall res, r = Return res -> styles_processed (metadata res) = [])
          /\ (forall e, r = Raise e ->
                exists d x fs x' fs' e0,
                  api_process_youtube_url url d [] lang x fs = (x', fs', Raise e0)))
  /\ (forall (w w' : World) (e : PyExn),
     _validate_styles [] w = (w', Raise e) ->
     exists e0, get_available_styles w = (w', Raise e) /\ e = ExternalServiceError e0)
  /\ (forall (url lang : string) (given : list string) (w w' : World)
             (res : ProcessingResult),
     process_video url (Some given) lang w = (w', Return res) ->
     styles_processed (metadata res) = given).
Proof.
  split; [|split; [|split; [|split]]].
  - intros data v Hs. unfold VideoProcessRequestSerializer. rewrite Hs. cbn.
    repeat case_match; intros Hv; by simplify_eq.
  - intros data v Hs. unfold VideoProcessRequestSerializer. rewrite Hs. cbn.
    repeat case_match; intros Hv; by simplify_eq.
  - intros url lang w w1 available Hfetch. split.
    + unfold _validate_styles, mbind, M_bind, bind. by rewrite Hfetch.
    + intros w' r. revert Hfetch. unfold_run. cbn. case_api.
      all: intros Hfetch Hrun; simplify_eq; cbn.
      all: split; [by eexists|].
      all: split; [intros res Hres; by simplify_eq|].
      all: intros err Herr; simplify_eq; by repeat eexists.
  - intros w w' e. unfold_run. cbn. case_api.
    all: intros Hrun; simplify_eq. by eexists.
  - intros url lang given w w' res. unfold_run. cbn. case_api.
    all: intros Hrun; by simplify_eq.
Qed.

End Orchestrator.

(** ** Request Handler: the response re-validation *)

Lemma results_field_invalid (data : gmap string string) (fields : list string)
    (detail : string) :
  fold_left (results_field data) fields (Invalid detail) = Invalid detail.
Proof. induction fields as [|f fields IH]; [done | exact IH]. Qed.

(** The validated results hold, beside what was there to begin with, only
    declared fields that the data has, and all of those. *)
Lemma results_fold_keys (data : gmap string string) (fields : list string) :
  forall (acc : validation (gmap string string)) (r : gmap string string),
    fold_left (results_field data) fields acc = Valid r ->
    exists r0,
      acc = Valid r0
      /\ forall k, is_Some (r !! k)
                   <-> is_Some (r0 !! k) \/ (In k fields /\ is_Some (data !! k)).
Proof.
  induction fields as [|f fields IH]; intros acc r Hfold; cbn [fold_left] in Hfold.
  - exists r. split; [done|]. intros k. cbn [In]. tauto.
  - destruct (IH _ _ Hfold) as (r1 & Hstep & Hkeys).
    destruct acc as [r0|detail]; [|discriminate Hstep].
    exists r0. split; [done|]. intros k. rewrite Hkeys. cbn [In].
    unfold results_field in Hstep.
    destruct (data !! f) as [value|] eqn:Hf.
    + destruct (CharField true None value) as [cleaned|]; [|discriminate Hstep].
      injection Hstep as <-. rewrite lookup_insert_is_Some.
      destruct (decide (f = k)) as [->|Hne].
      * rewrite Hf. split; [|by auto]. intros _. right. split; [by left | by eexists].
      * split; [intros [[[]|[]]|[]] | intros [|[[]]]]; by eauto.
    + injection Hstep as <-. split; [by tauto|].
      intros [H | [[<- | H] Hk]]; [by auto | | by auto].
      rewrite Hf in Hk. by destruct Hk.
Qed.

(** Only the declared fields of the data are read. *)
Lemma results_fold_reads_fields (data data' : gmap string string)
    (fields : list string) (acc : validation (gmap string string)) :
  (forall k, In k fields -> data !! k = data' !! k) ->
  fold_left (results_field data) fields acc
  = fold_left (results_field data') fields acc.
Proof.
  revert acc. induction fields as [|f fields IH]; intros acc Hagree; [done|].
  cbn [fold_left]. rewrite IH by (intros k Hk; apply Hagree; by right).
  f_equal. unfold results_field. rewrite (Hagree f) by (by left). done.
Qed.

Section Handler.
Context {C : Collaborators}.

Lemma error_response_status (message : string) (status_code : Z) :
  status (_error_response message status_code) = status_code.
Proof.
  unfold _error_response.
  by destruct (ErrorResponseSerializer "error" message status_code) as [[[? ?] ?]|].
Qed.

Ltac failed_validation :=
  cbv beta iota; rewrite error_response_status; discriminate.

(** A response with status 200 out of [_create_success_response] is the
    success body built from the validated data. *)
Lemma create_success_response_200 (result_data : ProcessingResult) (url : string) :
  status (_create_success_response result_data url) = HTTP_200_OK ->
  exists s d,
    _create_success_response result_data url = mkResponse (SuccessBody s d) HTTP_200_OK
    /\ VideoResultsSerializer (results result_data) = Valid (data_results d).
Proof.
  unfold _create_success_response, VideoProcessResponseSerializer, VideoDataSerializer.
  destruct (CharField false None "success") as [s|]; [|failed_validation].
  destruct (URLField _) as [u|]; [|failed_validation].
  destruct (CharField false None (video_title _)) as [t|]; [|failed_validation].
  destruct (DateTimeField _) as [p|]; [|failed_validation].
  destruct (VideoResultsSerializer _) as [r|] eqn:Hr; [|failed_validation].
  destruct (VideoMetadataSerializer _) as [m|]; [|failed_validation].
  intros _. by exists s, (mkVideoData u t p r m).
Qed.

Lemma process_video_except_status (e : PyExn) (w w' : World) (resp : Response) :
  _process_video_except e w = (w', Return resp) -> status resp <> HTTP_200_OK.
Proof.
  destruct e; cbn; intros Hr; injection Hr as <- <-;
    rewrite error_response_status; discriminate.
Qed.

(** What [CharField] makes of a text it accepts. *)
Lemma CharField_valid (allow_blank : bool) (max_length : option nat)
    (data value : string) :
  CharField allow_blank max_length data = Valid value -> value = strip data.
Proof.
  unfold CharField. destruct (strip data) as [|c rest].
  - destruct allow_blank; [by intros [= <-] | discriminate].
  - repeat case_match; intros Hv; by simplify_eq.
Qed.

(** The validated results, entry by entry: a declared field that the data
    has comes out with its text trimmed, and nothing else comes out. *)
Lemma results_fold_values (data : gmap string string) (fields : list string) :
  forall (acc : validation (gmap string string)) (r : gmap string string),
    fold_left (results_field data) fields acc = Valid r ->
    exists r0,
      acc = Valid r0
      /\ forall k, r !! k = match data !! k with
                            | Some value =>
                                if decide (k ∈ fields) then Some (strip value)
                                else r0 !! k
                            | None => r0 !! k
                            end.
Proof.
  induction fields as [|f fields IH]; intros acc r Hfold; cbn [fold_left] in Hfold.
  - exists r. split; [done|]. intros k.
    destruct (data !! k); [|done]. by rewrite decide_False by apply not_elem_of_nil.
  - destruct (IH _ _ Hfold) as (r1 & Hstep & Hvalues).
    destruct acc as [r0|detail]; [|discriminate Hstep].
    exists r0. split; [done|]. intros k. rewrite Hvalues. clear Hvalues.
    unfold results_field in Hstep.
    destruct (data !! f) as [value_f|] eqn:Hf.
    + destruct (CharField true None value_f) as [cleaned|] eqn:Hclean;
        [|discriminate Hstep].
      injection Hstep as <-. apply CharField_valid in Hclean as ->.
      destruct (decide (k = f)) as [->|Hne].
      * rewrite Hf, lookup_insert_eq.
        rewrite (decide_True (P := f ∈ f :: fields)) by apply list_elem_of_here.
        by destruct (decide (f ∈ fields)).
      * rewrite lookup_insert_ne by done.
        destruct (data !! k); [|done].
        destruct (decide (k ∈ fields)) as [Hin|Hnin].
        -- by rewrite decide_True by (by apply list_elem_of_further).
        -- rewrite decide_False; [done|].
           by intros [?|?]%elem_of_cons.
    + injection Hstep as <-.
      destruct (data !! k) eqn:Hk; [|done].
      destruct (decide (k ∈ fields)) as [Hin|Hnin].
      * by rewrite decide_True by (by apply list_elem_of_further).
      * rewrite decide_False; [done|].
        intros [->|?]%elem_of_cons; [congruence | done].
Qed.

(** The results of a success response, exactly. *)
Lemma success_response_results (rd : ProcessingResult) (url s : string)
    (d : VideoData) :
  _create_success_response rd url = mkResponse (SuccessBody s d) HTTP_200_OK ->
  forall k, data_results d !! k
            = if decide (k ∈ results_fields) then strip <$> results rd !! k
              else None.
Proof.
  intros Hresp k.
  assert (status (_create_success_response rd url) = HTTP_200_OK) as H200
    by (by rewrite Hresp).
  apply create_success_response_200 in H200 as (s' & d' & Heq & Hres).
  rewrite Heq in Hresp. injection Hresp as -> ->.
  apply results_fold_values in Hres as (r0 & [= <-] & Hvalues).
  rewrite Hvalues, lookup_empty.
  destruct (results rd !! k); by destruct (decide (k ∈ results_fields)).
Qed.

(** C9. A response with status 200 from the Request Handler carries the
    success body, and its data.results has no key outside the five canonical
    style keys. An entry the Orchestrator's results hold under any other key
    makes no difference to the response: the response is the one that would
    be sent without the entry. The entries under canonical keys are all
    still there. *)
Theorem C9_success_response_has_only_canonical_result_keys :
  (forall (data : RequestData) (w w' : World) (resp : Response),
     post data w = (w', Return resp) ->
     status resp = HTTP_200_OK ->
     exists s d,
       body resp = SuccessBody s d
       /\ forall k, is_Some (data_results d !! k) -> In k Spec.canonical_keys)
  /\ (forall (rd : ProcessingResult) (url k v : string),
     ~ In k Spec.canonical_keys ->
     _create_success_response
       (mkProcessingResult (video_url rd) (video_title rd) (processed_at rd)
                           (<[k := v]> (results rd)) (metadata rd)) url
     = _create_success_response rd url)
  /\ (forall (rd : ProcessingResult) (url s : string) (d : VideoData),
     _create_success_response rd url = mkResponse (SuccessBody s d) HTTP_200_OK ->
     forall k, In k Spec.canonical_keys ->
               (is_Some (data_results d !! k) <-> is_Some (results rd !! k))).
Proof.
  split; [|split].
  - intros data w w' resp Hpost H200.
    assert (exists rd url, resp = _create_success_response rd url) as (rd & url & ->).
    { revert Hpost. unfold post.
      destruct (VideoProcessRequestSerializer data) as [errors|v].
      - intros Hr. injection Hr as <- <-. discriminate H200.
      - unfold _process_video, try_except, mbind, M_bind, bind.
        destruct (VideoProcessingService_init w) as [w1 [[]|e]].
        + destruct (process_video _ _ _ w1) as [w2 [rd|e]].
          * intros Hr. injection Hr as <- <-. by eexists _, _.
          * intros Hr. by apply process_video_except_status in Hr.
        + intros Hr. by apply process_video_except_status in Hr. }
    apply create_success_response_200 in H200 as (s & d & -> & Hres).
    exists s, d. split; [done|]. intros k Hk.
    apply results_fold_keys in Hres as (r0 & [= <-] & Hkeys).
    apply Hkeys in Hk as [Hk | [Hk _]]; [|done].
    rewrite lookup_empty in Hk. by destruct Hk.
  - intros rd url k v Hk.
    unfold _create_success_response, VideoProcessResponseSerializer,
      VideoDataSerializer.
    cbn [results video_url video_title processed_at metadata].
    assert (VideoResultsSerializer (<[k := v]> (results rd))
            = VideoResultsSerializer (results rd)) as ->; [|done].
    apply results_fold_reads_fields. intros f Hf.
    apply lookup_insert_ne. by intros ->.
  - intros rd url s d Hresp k Hk.
    assert (status (_create_success_response rd url) = HTTP_200_OK) as H200
      by (by rewrite Hresp).
    apply create_success_response_200 in H200 as (s' & d' & Heq & Hres).
    rewrite Heq in Hresp. injection Hresp as -> ->.
    apply results_fold_keys in Hres as (r0 & [= <-] & Hkeys).
    rewrite Hkeys, lookup_empty. split.
    + intros [H | [_ H]]; [by destruct H | done].
    + intros H. right. done.
Qed.

End Handler.

(** ** The theorems at work on the test double *)

Lemma C8_temporary_directory_removed_on_every_exit_witness :
  let run := @process_video Mock.collaborators
               "https://youtu.be/slow" None "English" Mock.world0 in
  exists new,
    events (fst run) = new ++ events Mock.world0
    /\ (forall d, In (TempDirCreated d) new ->
          (exists earlier, new = TempDirRemoved d :: earlier)
          /\ (d ∉ tempdirs (fst run))
          /\ (forall path, inside d path = true -> files (fst run) !! path = None))
    /\ (forall res, snd run = Return res -> exists d, In (TempDirCreated d) new)
    /\ (forall u d requested language,
          In (ApiProcessYoutubeUrl u d requested language) new ->
          In (TempDirCreated d) new)
    /\ (forall d, d ∈ tempdirs (fst run) -> d ∈ tempdirs Mock.world0).
Proof.
  intros run.
  apply (@C8_temporary_directory_removed_on_every_exit Mock.collaborators
           "https://youtu.be/slow" None "English" Mock.world0 (fst run) (snd run)).
  vm_compute. reflexivity.
Defined.

Lemma C6_categorized_errors_propagate_unchanged_witness :
  let run := @process_video_try Mock.collaborators 0%nat
               "https://youtu.be/typed" (Some ["Summary"]) "English" Mock.world0 in
  @process_video Mock.collaborators
    "https://youtu.be/typed" (Some ["Summary"]) "English" Mock.world0
  = (fst run, Raise (ProcessingTimeoutError "Processing timeout")).
Proof.
  intros run.
  apply (@C6_categorized_errors_propagate_unchanged Mock.collaborators
           "https://youtu.be/typed" (Some ["Summary"]) "English" Mock.world0
           (fst run) (ProcessingTimeoutError "Processing timeout")).
  - vm_compute. reflexivity.
  - reflexivity.
Defined.

Lemma C4_absent_styles_request_all_supported_witness :
  let w1 := fst (@get_available_styles Mock.collaborators Mock.world0) in
  @process_video_try Mock.collaborators 0%nat
    "https://youtu.be/abc" None "English" Mock.world0
  = @process_video_try Mock.collaborators 0%nat
    "https://youtu.be/abc" (Some ["Summary"; "Educational"]) "English" w1.
Proof.
  intros w1.
  apply (proj1 (proj2 (@C4_absent_styles_request_all_supported Mock.collaborators
                         "https://youtu.be/abc" "English" Mock.world0)
                  w1 ["Summary"; "Educational"] ltac:(vm_compute; reflexivity))
           0%nat).
Defined.

Lemma C10_empty_style_list_is_not_substituted_witness :
  let w1 := fst (@get_available_styles Mock.collaborators Mock.world0) in
  @_validate_styles Mock.collaborators [] Mock.world0 = (w1, Return tt).
Proof.
  intros w1.
  apply (proj1 (proj2 (proj2 (@C10_empty_style_list_is_not_substituted
                                Mock.collaborators)))
           "https://youtu.be/abc" "English" Mock.world0 w1
           ["Summary"; "Educational"]).
  vm_compute. reflexivity.
Defined.

Lemma C9_success_response_has_only_canonical_result_keys_witness :
  let request := mkRequestData (Some "https://youtu.be/extra") None None in
  let run := @post Mock.collaborators request Mock.world0 in
  match snd run with
  | Return resp =>
      status resp = HTTP_200_OK
      /\ exists s d,
           body resp = SuccessBody s d
           /\ forall k, is_Some (data_results d !! k) -> In k Spec.canonical_keys
  | Raise _ => False
  end.
Proof.
  intros request run.
  destruct (snd run) as [resp|e] eqn:Hresp;
    [|vm_compute in Hresp; discriminate Hresp].
  assert (status resp = HTTP_200_OK) as H200.
  { vm_compute in Hresp. injection Hresp as <-. reflexivity. }
  split; [exact H200|].
  apply (proj1 (@C9_success_response_has_only_canonical_result_keys
                  Mock.collaborators) request Mock.world0 (fst run) resp).
  - rewrite <- Hresp. apply surjective_pairing.
  - exact H200.
Defined.

(** The two end-to-end scenarios of the specification, on the test double:
    a request with a URL alone is processed for all supported styles, and a
    text that is no video URL is refused before any processing. *)
Example post_end_to_end :
  match snd (@post Mock.collaborators
               (mkRequestData (Some "https://youtu.be/abc123") None None)
               Mock.world0) with
  | Return (mkResponse (SuccessBody s d) code) =>
      code = 200%Z
      /\ data_results d !! "summary" = Some "About Summary"
      /\ data_video_title d = "TestVideo"
      /\ language (data_metadata d) = "English"
      /\ styles_processed (data_metadata d) = ["Summary"; "Educational"]
  | _ => False
  end.
Proof. vm_compute. repeat split; reflexivity. Qed.

Example post_not_a_url :
  @post Mock.collaborators (mkRequestData (Some "not-a-url") None None) Mock.world0
  = (Mock.world0,
     Return (mkResponse
               (InvalidRequestBody "error" "Invalid request data"
                  [("video_url",
                    "Invalid YouTube URL. Please provide a valid YouTube video URL.")])
               400%Z)).
Proof. reflexivity. Qed.

(* ===================================================================== *)
(** * Further properties of the code                                      *)
(* ===================================================================== *)

Import Notions.

(** ** Output Normalizer: the run over a whole list *)

(** One file, in terms of what it contributes. *)
Lemma parse_output_file_contributes (files results : gmap string string)
    (title path : string) :
  parse_output_file files (results, title) path
  = match files !! path with
    | Some content =>
        if contributes files path
        then (<[key_of path := content]> results, title_of path)
        else (results, title)
    | None => (results, title)
    end.
Proof.
  unfold contributes, key_of, title_of.
  destruct (files !! path) as [content|] eqn:Hfile.
  - destruct (str_in "_" (stem path)) eqn:Hsep.
    + by apply parse_output_file_separator.
    + by apply parse_output_file_no_separator.
  - by apply parse_output_file_missing.
Qed.

Lemma parse_output_file_idle (files results : gmap string string)
    (title path : string) :
  contributes files path = false ->
  parse_output_file files (results, title) path = (results, title).
Proof.
  intros H. rewrite parse_output_file_contributes, H. by destruct (files !! path).
Qed.

Lemma fold_idle (files : gmap string string) (l : list string)
    (acc : gmap string string * string) :
  Forall (fun q => contributes files q = false) l ->
  fold_left (parse_output_file files) l acc = acc.
Proof.
  revert acc. induction l as [|q l IH]; intros [results title] Hl; [done|].
  apply Forall_cons in Hl as [Hq Hl]. cbn [fold_left].
  rewrite parse_output_file_idle by done. by apply IH.
Qed.

(** A path that is not on disk is passed over: the run is the run without
    it. *)
Theorem missing_file_is_skipped (files : gmap string string)
    (before after : list string) (path : string) :
  files !! path = None ->
  _parse_output_files files (before ++ path :: after)
  = _parse_output_files files (before ++ after).
Proof.
  intros Hmissing. unfold _parse_output_files.
  rewrite !fold_left_app. cbn [fold_left].
  destruct (fold_left _ before _) as [results title].
  by rewrite parse_output_file_missing.
Qed.

Lemma missing_file_is_skipped_witness :
  _parse_output_files {[ "d/Foo_Summary.md" := "text" ]}
    (["d/Gone_Educational.md"] ++ "d/Other_Summary.md" :: ["d/Foo_Summary.md"])
  = _parse_output_files {[ "d/Foo_Summary.md" := "text" ]}
    (["d/Gone_Educational.md"] ++ ["d/Foo_Summary.md"]).
Proof.
  apply (missing_file_is_skipped {[ "d/Foo_Summary.md" := "text" ]}
           ["d/Gone_Educational.md"] ["d/Foo_Summary.md"] "d/Other_Summary.md").
  reflexivity.
Defined.

(** Where the entries and the title of a run come from, for a run that
    starts from any results and title. *)
Lemma fold_provenance (files : gmap string string) (l : list string) :
  forall (results0 : gmap string string) (title0 : string),
    let out := fold_left (parse_output_file files) l (results0, title0) in
    (forall k c, fst out !! k = Some c ->
       results0 !! k = Some c
       \/ exists path, In path l /\ files !! path = Some c
                       /\ contributes files path = true /\ key_of path = k)
    /\ (snd out = title0
        \/ exists path, In path l /\ contributes files path = true
                        /\ snd out = title_of path).
Proof.
  induction l as [|q l IH]; intros results0 title0; cbn [fold_left].
  - split; [by left | by left].
  - rewrite parse_output_file_contributes.
    destruct (files !! q) as [content|] eqn:Hq;
      [destruct (contributes files q) eqn:Hc|].
    + destruct (IH (<[key_of q := content]> results0) (title_of q)) as [Hr Ht].
      split.
      * intros k c Hk. destruct (Hr k c Hk) as [H0 | (path & Hin & Hrest)].
        -- apply lookup_insert_Some in H0 as [[<- <-] | [_ H0]]; [|by left].
           right. exists q. split; [by left | done].
        -- right. exists path. split; [by right | done].
      * right. destruct Ht as [Ht | (path & Hin & Hrest)].
        -- exists q. split; [by left | done].
        -- exists path. split; [by right | done].
    + destruct (IH results0 title0) as [Hr Ht]. split.
      * intros k c Hk. destruct (Hr k c Hk) as [H0 | (path & Hin & Hrest)];
          [by left|]. right. exists path. split; [by right | done].
      * destruct Ht as [Ht | (path & Hin & Hrest)]; [by left|].
        right. exists path. split; [by right | done].
    + destruct (IH results0 title0) as [Hr Ht]. split.
      * intros k c Hk. destruct (Hr k c Hk) as [H0 | (path & Hin & Hrest)];
          [by left|]. right. exists path. split; [by right | done].
      * destruct Ht as [Ht | (path & Hin & Hrest)]; [by left|].
        right. exists path. split; [by right | done].
Qed.

(** Nothing is made up: every entry of the results is the content of a
    listed file that exists and has the separator in its stem, under that
    file's key; and the title is the sentinel or the title candidate of such
    a file. *)
Theorem results_come_from_listed_files (files : gmap string string)
    (output_files : list string) :
  (forall k c,
     fst (_parse_output_files files output_files) !! k = Some c ->
     exists path, In path output_files /\ files !! path = Some c
                  /\ str_in "_" (stem path) = true /\ key_of path = k)
  /\ (snd (_parse_output_files files output_files) = "Unknown Title"
      \/ exists path, In path output_files /\ is_Some (files !! path)
                      /\ str_in "_" (stem path) = true
                      /\ snd (_parse_output_files files output_files) = title_of path).
Proof.
  destruct (fold_provenance files output_files ∅ "Unknown Title") as [Hr Ht].
  split.
  - intros k c Hk. destruct (Hr k c Hk) as [H0 | (path & Hin & Hf & Hc & Hkey)].
    + by rewrite lookup_empty in H0.
    + exists path. unfold contributes in Hc. by rewrite Hf in Hc.
  - destruct Ht as [Ht | (path & Hin & Hc & Ht)]; [by left|].
    right. exists path. unfold contributes in Hc.
    destruct (files !! path) eqn:Hf; [|done]. by eauto.
Qed.

(** An entry survives the files that follow when none of them writes under
    its key. *)
Lemma fold_keeps_entry (files : gmap string string) (after : list string)
    (k c : string) :
  forall (results : gmap string string) (title : string),
    results !! k = Some c ->
    Forall (fun q => contributes files q = false \/ key_of q <> k) after ->
    fst (fold_left (parse_output_file files) after (results, title)) !! k = Some c.
Proof.
  induction after as [|q after IH]; intros results title Hk Hafter; [done|].
  apply Forall_cons in Hafter as [Hq Hafter]. cbn [fold_left].
  rewrite parse_output_file_contributes.
  destruct (files !! q) as [content|]; [|by apply IH].
  destruct (contributes files q) eqn:Hc; [|by apply IH].
  destruct Hq as [Hq | Hq]; [done|].
  apply IH; [|done]. by rewrite lookup_insert_ne.
Qed.

(** The entry a contributing file writes is still there at the end when no
    later file writes under its key. *)
Lemma last_contribution_entry (files : gmap string string)
    (before after : list string) (path content : string) :
  files !! path = Some content ->
  contributes files path = true ->
  Forall (fun q => contributes files q = false \/ key_of q <> key_of path) after ->
  fst (_parse_output_files files (before ++ path :: after)) !! key_of path
  = Some content.
Proof.
  intros Hfile Hc Hafter. unfold _parse_output_files.
  rewrite fold_left_app. cbn [fold_left].
  destruct (fold_left _ before _) as [results title].
  rewrite parse_output_file_contributes, Hfile, Hc.
  apply fold_keeps_entry; [apply lookup_insert_eq | done].
Qed.

(** Last write wins: the entry under a key is the content of the last
    listed file that contributes under that key; and the title is the title
    candidate of the last file that contributes at all. *)
Theorem last_file_wins (files : gmap string string)
    (before after : list string) (path content : string) :
  files !! path = Some content ->
  str_in "_" (stem path) = true ->
  (Forall (fun q => contributes files q = false \/ key_of q <> key_of path) after ->
   fst (_parse_output_files files (before ++ path :: after)) !! key_of path
   = Some content)
  /\ (Forall (fun q => contributes files q = false) after ->
      snd (_parse_output_files files (before ++ path :: after)) = title_of path).
Proof.
  intros Hfile Hsep.
  assert (contributes files path = true) as Hc
    by (unfold contributes; by rewrite Hfile).
  split; [by apply last_contribution_entry|].
  intros Hafter. unfold _parse_output_files.
  rewrite fold_left_app. cbn [fold_left].
  destruct (fold_left _ before _) as [results title].
  rewrite parse_output_file_contributes, Hfile, Hc. by rewrite fold_idle.
Qed.

Lemma last_file_wins_witness :
  fst (_parse_output_files
         {[ "d/A_Summary.md" := "first"; "d/B_summary notes.md" := "second" ]}
         (["d/A_Summary.md"] ++ "d/B_summary notes.md" :: ["d/none.md"]))
    !! key_of "d/B_summary notes.md"
  = Some "second".
Proof.
  apply (last_file_wins
           {[ "d/A_Summary.md" := "first"; "d/B_summary notes.md" := "second" ]}
           ["d/A_Summary.md"] ["d/none.md"] "d/B_summary notes.md" "second").
  - vm_compute. reflexivity.
  - vm_compute. reflexivity.
  - apply Forall_cons. split; [left; vm_compute; reflexivity | apply Forall_nil; done].
Defined.

Lemma replace_absent (c : ascii) (new s : string) :
  str_in (String c EmptyString) s = false -> replace c new s = s.
Proof.
  induction s as [|a s IH]; [done|]. cbn.
  rewrite (Ascii.eqb_sym c a), andb_true_r.
  destruct (Ascii.eqb a c); cbn; [done|]. intros H. by rewrite IH.
Qed.

Lemma parsed_title_clean (files : gmap string string) (output_files : list string) :
  str_in "_" (snd (_parse_output_files files output_files)) = false.
Proof.
  destruct (fold_provenance files output_files ∅ "Unknown Title") as [_ Ht].
  unfold _parse_output_files.
  destruct Ht as [-> | (path & _ & Hc & ->)]; [done|].
  unfold contributes in Hc. destruct (files !! path); [|done].
  by apply stem_title_and_label.
Qed.

(** The title never holds the separator, so the [replace("_", " ")] that
    [process_video] applies to it changes nothing: a title is the stem up
    to its first underscore, or the sentinel. *)
Theorem title_has_no_separator (files : gmap string string)
    (output_files : list string) :
  str_in "_" (snd (_parse_output_files files output_files)) = false
  /\ replace "_" " " (snd (_parse_output_files files output_files))
     = snd (_parse_output_files files output_files).
Proof.
  split; [apply parsed_title_clean | apply replace_absent, parsed_title_clean].
Qed.

(** ** The shape of result keys *)

Lemma all_chars_impl (p q : ascii -> bool) (s : string) :
  (forall c, p c = true -> q c = true) ->
  Spec.all_chars p s = true -> Spec.all_chars q s = true.
Proof.
  intros Hpq. induction s as [|c s IH]; [done|]. cbn.
  intros [Hc Hs]%andb_true_iff. by rewrite (Hpq c Hc), IH.
Qed.

(** Replacing a character by a text whose characters are all fine leaves
    only fine characters, when it was the only one that was not. *)
Lemma all_chars_replace (p : ascii -> bool) (old : ascii) (new s : string) :
  Spec.all_chars p new = true ->
  Spec.all_chars (fun c => Ascii.eqb c old || p c) s = true ->
  Spec.all_chars p (replace old new s) = true.
Proof.
  intros Hnew. induction s as [|c s IH]; [done|]. cbn.
  intros [Hc Hs]%andb_true_iff. destruct (Ascii.eqb c old); cbn in Hc.
  - rewrite all_chars_app, Hnew. by apply IH.
  - cbn. rewrite Hc. by apply IH.
Qed.

Lemma lower_ascii_not_upper (c : ascii) : is_upper (lower_ascii c) = false.
Proof.
  destruct c as [[] [] [] [] [] [] [] []]; reflexivity.
Qed.

Lemma lower_no_upper (s : string) :
  Spec.all_chars (fun c => negb (is_upper c)) (lower s) = true.
Proof.
  induction s as [|c s IH]; [done|]. cbn.
  by rewrite lower_ascii_not_upper, IH.
Qed.

(** The fallback key of any label is made of key characters only. *)
Lemma fallback_key_chars (label : string) :
  Spec.all_chars key_char (Spec.fallback_key label) = true.
Proof.
  unfold Spec.fallback_key.
  apply all_chars_replace; [reflexivity|].
  apply (all_chars_impl (fun c => negb (Ascii.eqb c " " || is_upper c))).
  { intros c. unfold key_char.
    destruct (Ascii.eqb c "&"), (Ascii.eqb c " "), (is_upper c); done. }
  apply all_chars_replace; [reflexivity|].
  apply (all_chars_impl (fun c => negb (is_upper c))); [|apply lower_no_upper].
  intros c. by destruct (Ascii.eqb c " "), (is_upper c).
Qed.

Lemma result_key_chars (label : string) :
  Spec.all_chars key_char (Spec.result_key label) = true.
Proof.
  unfold Spec.result_key.
  destruct (List.find _ Spec.label_table) as [entry|] eqn:Hfind;
    [|apply fallback_key_chars].
  apply find_some in Hfind as [Hin _].
  unfold Spec.label_table in Hin. cbn [In] in Hin.
  destruct_or!; subst; done.
Qed.

(** Whatever the files are called, every key of the results is free of
    spaces, ampersands and capital letters. *)
Theorem result_keys_are_normalized (files : gmap string string)
    (output_files : list string) (k : string) :
  is_Some (fst (_parse_output_files files output_files) !! k) ->
  Spec.all_chars key_char k = true.
Proof.
  intros [c Hk].
  destruct (fold_provenance files output_files ∅ "Unknown Title") as [Hr _].
  destruct (Hr k c Hk) as [H0 | (path & _ & _ & _ & <-)].
  - by rewrite lookup_empty in H0.
  - apply result_key_chars.
Qed.

Lemma result_keys_are_normalized_witness :
  Spec.all_chars key_char "qanda_and_more" = true.
Proof.
  apply (result_keys_are_normalized
           {[ "d/Talk_Q&A And More.md" := "text" ]} ["d/Talk_Q&A And More.md"]).
  vm_compute. eexists. reflexivity.
Defined.

(** If some file contributes, there is a last one that does. *)
Lemma last_contributing (files : gmap string string) (l : list string) :
  existsb (contributes files) l = true ->
  exists before path after,
    l = before ++ path :: after
    /\ contributes files path = true
    /\ Forall (fun q => contributes files q = false) after.
Proof.
  induction l as [|q l IH]; [done|]. cbn [existsb].
  destruct (existsb (contributes files) l) eqn:Hl.
  - intros _. destruct (IH eq_refl) as (before & path & after & -> & Hc & Hafter).
    by exists (q :: before), path, after.
  - rewrite orb_false_r. intros Hq. exists [], q, l. split; [done|]. split; [done|].
    apply Forall_forall. intros x Hx.
    destruct (contributes files x) eqn:Hcx; [|done].
    assert (existsb (contributes files) l = true) as Habs; [|congruence].
    apply existsb_exists. exists x. split; [by apply list_elem_of_In | done].
Qed.

(** The results are empty exactly when no listed file both exists and has
    the separator in its stem, and the title is then the sentinel. *)
Theorem empty_results_iff_nothing_contributes (files : gmap string string)
    (output_files : list string) :
  (Forall (fun q => contributes files q = false) output_files ->
   _parse_output_files files output_files = (∅, "Unknown Title"))
  /\ (fst (_parse_output_files files output_files) = ∅ ->
      Forall (fun q => contributes files q = false) output_files).
Proof.
  split.
  - intros Hnone. unfold _parse_output_files. by apply fold_idle.
  - intros Hempty.
    destruct (existsb (contributes files) output_files) eqn:Hex.
    + destruct (last_contributing _ _ Hex)
        as (before & path & after & -> & Hc & Hafter).
      unfold contributes in Hc.
      destruct (files !! path) as [content|] eqn:Hfile; [|done].
      assert (contributes files path = true) as Hc'
        by (unfold contributes; by rewrite Hfile).
      assert (fst (_parse_output_files files (before ++ path :: after))
                !! key_of path = Some content) as Hk.
      { apply last_contribution_entry; [done | done |].
        eapply Forall_impl; [exact Hafter | by left]. }
      rewrite Hempty, lookup_empty in Hk. discriminate Hk.
    + apply Forall_forall. intros x Hx.
      destruct (contributes files x) eqn:Hcx; [|done].
      assert (existsb (contributes files) output_files = true) as Habs;
        [|congruence].
      apply existsb_exists. exists x. split; [by apply list_elem_of_In | done].
Qed.

Lemma empty_results_iff_nothing_contributes_witness :
  _parse_output_files {[ "d/NoUnderscore.md" := "text" ]}
    ["d/NoUnderscore.md"; "d/Gone_Summary.md"]
  = (∅, "Unknown Title").
Proof.
  apply (proj1 (empty_results_iff_nothing_contributes
                  {[ "d/NoUnderscore.md" := "text" ]}
                  ["d/NoUnderscore.md"; "d/Gone_Summary.md"])).
  repeat (apply Forall_cons; split; [vm_compute; reflexivity|]).
  apply Forall_nil. done.
Defined.

(** ** The service, method by method *)

Section ServiceMethods.
Context {C : Collaborators}.

Ltac run_service :=
  unfold process_video, process_video_try, process_video_except,
    _validate_styles, get_available_styles, with_TemporaryDirectory,
    TemporaryDirectory_enter, finally, try_except,
    api_call_get_available_styles, api_call_process_youtube_url, read,
    mbind, M_bind, bind, ret, raise in *.

Ltac split_calls :=
  repeat match goal with
    | |- context [api_get_available_styles ?x] =>
        let r := fresh "fetched" in
        let e := fresh "e" in
        destruct (api_get_available_styles x) as [? [r|e]] eqn:?; cbn
    | |- context [api_process_youtube_url ?u ?d ?s ?l ?x ?f] =>
        let r := fresh "output_files" in
        let e := fresh "e" in
        destruct (api_process_youtube_url u d s l x f) as [[? ?] [r|e]] eqn:?; cbn
    | |- context [List.filter ?f ?l] =>
        destruct (List.filter f l) eqn:?; cbn
    | |- context [match ?e with VideoValidationError _ => _ | _ => _ end] =>
        is_var e; destruct e; cbn
    end.

Lemma init_leaves_world (w : World) : fst (VideoProcessingService_init w) = w.
Proof.
  unfold VideoProcessingService_init, ret, raise.
  destruct settings_OPENAI_API_KEY as [[|c key]|]; cbn; [done| |done].
  by destruct (api_init _).
Qed.

Lemma init_without_key (w : World) :
  settings_OPENAI_API_KEY = None \/ settings_OPENAI_API_KEY = Some EmptyString ->
  VideoProcessingService_init w
  = (w, Raise (ConfigurationError "OPENAI_API_KEY not configured")).
Proof.
  unfold VideoProcessingService_init, raise. by intros [-> | ->].
Qed.

(** [__init__] either succeeds or raises a [ConfigurationError], and never
    touches the world; it succeeds exactly when the configured key is a
    non-empty text that the client's constructor takes. A missing or empty
    key is reported before the constructor is tried. *)
Theorem init_raises_only_configuration_errors (w : World) :
  fst (VideoProcessingService_init w) = w
  /\ (snd (VideoProcessingService_init w) = Return tt
      <-> exists api_key, settings_OPENAI_API_KEY = Some api_key
                          /\ api_key <> EmptyString /\ api_init api_key = None)
  /\ (forall e, snd (VideoProcessingService_init w) = Raise e ->
        exists m, e = ConfigurationError m
                  /\ status_code e = Some HTTP_500_INTERNAL_SERVER_ERROR)
  /\ (settings_OPENAI_API_KEY = None \/ settings_OPENAI_API_KEY = Some EmptyString ->
      snd (VideoProcessingService_init w)
      = Raise (ConfigurationError "OPENAI_API_KEY not configured")).
Proof.
  unfold VideoProcessingService_init, ret, raise.
  destruct settings_OPENAI_API_KEY as [[|c key]|] eqn:Hkey; cbn.
  - split; [done|]. split; [|split].
    + split; [done|]. by intros (k & [= <-] & Hne & _).
    + intros e [= <-]. by eexists.
    + done.
  - destruct (api_init (String c key)) as [e0|] eqn:Hinit; cbn.
    + split; [done|]. split; [|split].
      * split; [done|]. intros (k & [= <-] & _ & Hnone). congruence.
      * intros e [= <-]. by eexists.
      * by intros [|].
    + split; [done|]. split; [|split].
      * split; [|done]. intros _. by exists (String c key).
      * done.
      * by intros [|].
  - split; [done|]. split; [|split].
    + split; [done|]. by intros (k & [=] & _).
    + intros e [= <-]. by eexists.
    + done.
Qed.

Lemma get_available_styles_frame (w w1 : World) (r : outcome (list string)) :
  get_available_styles w = (w1, r) ->
  files w1 = files w /\ tempdirs w1 = tempdirs w
  /\ events w1 = ApiGetAvailableStyles :: events w.
Proof.
  run_service. destruct (api_get_available_styles (ext w)) as [x [styles|e]];
    by intros [= <- <-].
Qed.

(** [get_available_styles] hands on the client's list as it is, and turns
    whatever the client raises, a categorised error included, into an
    [ExternalServiceError] that quotes it. It makes one call to the client
    and leaves files and temporary directories alone. *)
Lemma get_available_styles_outcome (w : World) :
  let run := get_available_styles w in
  files (fst run) = files w
  /\ tempdirs (fst run) = tempdirs w
  /\ events (fst run) = ApiGetAvailableStyles :: events w
  /\ ext (fst run) = fst (api_get_available_styles (ext w))
  /\ match snd (api_get_available_styles (ext w)) with
     | Return styles => snd run = Return styles
     | Raise e =>
         snd run = Raise (ExternalServiceError
                            ("Failed to get available styles: " +:+ str e))
     end.
Proof.
  run_service. by destruct (api_get_available_styles (ext w)) as [x [styles|e]].
Qed.

Lemma filter_nil_iff {A} (f : A -> bool) (l : list A) :
  List.filter f l = [] <-> Forall (fun x => f x = false) l.
Proof.
  induction l as [|x l IH]; cbn.
  - split; [intros _; apply Forall_nil; done | done].
  - rewrite Forall_cons. destruct (f x); [|by rewrite IH; intuition].
    split; [done | by intros [? _]].
Qed.


(** The classifier's verdict is always one of the four categorised
    errors. *)
Lemma handle_processing_error_categorized (e : PyExn) (url : string) :
  categorized (_handle_processing_error e url) = true.
Proof.
  unfold _handle_processing_error.
  by repeat match goal with |- context [if ?b then _ else _] => destruct b end.
Qed.

Lemma process_video_raise_categorized
    (url : string) (styles : option (list string)) (lang : string)
    (w w' : World) (e : PyExn) :
  process_video url styles lang w = (w', Raise e) -> categorized e = true.
Proof.
  unfold process_video, try_except, read, mbind, M_bind, bind.
  destruct (process_video_try _ url styles lang w) as [w1 [res|e1]]; [done|].
  intros Hrun.
  destruct e1; cbn in Hrun; injection Hrun as _ <-; try done.
  apply handle_processing_error_categorized.
Qed.

(** Only categorised errors leave [process_video]: whatever goes wrong, a
    caller never sees an exception without a status code. *)
Theorem process_video_raises_only_categorized
    (url : string) (styles : option (list string)) (lang : string)
    (w w' : World) (e : PyExn) :
  process_video url styles lang w = (w', Raise e) ->
  categorized e = true /\ is_Some (status_code e).
Proof.
  intros Hcat%process_video_raise_categorized. split; [done|]. by destruct e.
Qed.

(** A requested style missing from the fetched catalogue makes the call
    raise in the world the fetch left. *)
Lemma process_video_missing_style
    (url lang : string) (given available : list string) (w w1 : World)
    (s : string) :
  get_available_styles w = (w1, Return available) ->
  In s given -> ~ In s available ->
  exists m, startswith "Invalid styles: " m = true
            /\ process_video url (Some given) lang w
               = (w1, Raise (VideoValidationError m)).
Proof.
  intros Hfetch Hs Hns.
  unfold process_video, process_video_try, _validate_styles, try_except, read,
    mbind, M_bind, bind, ret.
  rewrite Hfetch.
  destruct (List.filter (fun s => negb (list_in s available)) given)
    as [|bad rest] eqn:Hfilter.
  - exfalso. apply filter_nil_iff in Hfilter. rewrite Forall_forall in Hfilter.
    specialize (Hfilter s). rewrite list_elem_of_In in Hfilter.
    apply Hfilter, negb_false_iff, list_in_spec in Hs. done.
  - eexists. split; [|reflexivity]. apply startswith_spec. by eexists.
Qed.

(** A requested style that the catalogue lacks stops the call before any
    work: the call raises a [VideoValidationError] in the world the single
    fetch left, so no temporary directory is made, no processing is asked
    of the external service, and no file is touched. *)
Theorem invalid_style_aborts_before_processing
    (url lang : string) (given available : list string) (w w1 : World) :
  get_available_styles w = (w1, Return available) ->
  (exists s, In s given /\ ~ In s available) ->
  (exists m, startswith "Invalid styles: " m = true
             /\ process_video url (Some given) lang w
                = (w1, Raise (VideoValidationError m)))
  /\ events w1 = ApiGetAvailableStyles :: events w
  /\ files w1 = files w
  /\ tempdirs w1 = tempdirs w.
Proof.
  intros Hfetch (s & Hs & Hns).
  destruct (get_available_styles_frame w w1 _ Hfetch) as (Hfiles & Hdirs & Hevents).
  split; [|done]. by eapply process_video_missing_style.
Qed.

(** A failed fetch of the catalogue is never classified by its message:
    whatever the client raised, a timeout or an authentication failure
    included, and whether or not styles were requested, the call raises an
    [ExternalServiceError] that quotes it, after that single fetch and
    nothing else. *)
Theorem catalogue_failure_is_never_classified
    (url : string) (styles : option (list string)) (lang : string)
    (w : World) (x : Ext) (e0 : PyExn) :
  api_get_available_styles (ext w) = (x, Raise e0) ->
  exists w1,
    process_video url styles lang w
    = (w1, Raise (ExternalServiceError
                    ("Failed to get available styles: " +:+ str e0)))
    /\ ext w1 = x
    /\ events w1 = ApiGetAvailableStyles :: events w
    /\ files w1 = files w
    /\ tempdirs w1 = tempdirs w.
Proof.
  intros Hfetch. run_service. destruct styles as [l|]; cbn; rewrite Hfetch; cbn.
  all: by eexists.
Qed.



(** No temporary directory is left behind by a call. *)
Lemma process_video_keeps_no_tempdir
    (url : string) (styles : option (list string)) (lang : string)
    (w w' : World) (r : outcome ProcessingResult) (d : string) :
  process_video url styles lang w = (w', r) ->
  d ∈ tempdirs w' -> d ∈ tempdirs w.
Proof.
  run_service. destruct styles as [l|]; cbn; split_calls.
  all: intros Hrun; simplify_eq; cbn.
  all: try done.
  all: apply tempdir_old.
Qed.

End ServiceMethods.

(** ** The request serializer *)

Lemma validate_video_url_valid (value v : string) :
  validate_video_url value = Valid v <-> v = value /\ Spec.accepted_url value.
Proof.
  unfold validate_video_url. rewrite <- youtube_patterns_spec.
  destruct (existsb _ youtube_patterns); cbn [negb].
  - split; [by intros [= <-] | by intros [-> _]].
  - split; [done | by intros [_ ?]].
Qed.

(** The hosts a video URL may have. *)
Lemma accepted_url_host (value : string) :
  Spec.accepted_url value ->
  exists sch host,
    Spec.scheme sch
    /\ In host ["youtube.com/"; "www.youtube.com/"; "youtu.be/"]
    /\ startswith (sch +:+ "://" +:+ host) value = true.
Proof.
  intros [sch w id rest Hsch Hw Hid | sch w params id rest Hsch Hw Hp Hid
         | sch id rest Hsch Hid | sch w id rest Hsch Hw Hid
         | sch w id rest Hsch Hw Hid].
  1,2,4,5: destruct Hw as [-> | ->];
    [exists sch, "youtube.com/" | exists sch, "www.youtube.com/"].
  9: exists sch, "youtu.be/".
  all: split; [done|]; split; [cbn [In]; tauto|].
  all: apply startswith_spec; eexists; rewrite !sapp_assoc; reflexivity.
Qed.

(** Whatever the URL Validator lets through begins with http or https,
    [://], and one of exactly three hosts followed by a slash: a URL on any
    other host, a subdomain such as m.youtube.com included, is refused. *)
Theorem accepted_urls_are_on_three_hosts (value v : string) :
  validate_video_url value = Valid v ->
  v = value
  /\ exists sch host,
       Spec.scheme sch
       /\ In host ["youtube.com/"; "www.youtube.com/"; "youtu.be/"]
       /\ startswith (sch +:+ "://" +:+ host) value = true.
Proof.
  intros [-> Ha]%validate_video_url_valid. split; [done|].
  by apply accepted_url_host.
Qed.

Lemma accepted_urls_are_on_three_hosts_witness :
  "http://www.youtube.com/embed/x1" = "http://www.youtube.com/embed/x1"
  /\ exists sch host,
       Spec.scheme sch
       /\ In host ["youtube.com/"; "www.youtube.com/"; "youtu.be/"]
       /\ startswith (sch +:+ "://" +:+ host) "http://www.youtube.com/embed/x1" = true.
Proof.
  apply (accepted_urls_are_on_three_hosts "http://www.youtube.com/embed/x1").
  reflexivity.
Defined.

(** Once accepted, always accepted: whatever is appended to a URL the
    validator accepts, the result is accepted too. *)
Theorem accepted_url_stays_accepted_when_extended (value suffix : string) :
  validate_video_url value = Valid value ->
  validate_video_url (value +:+ suffix) = Valid (value +:+ suffix).
Proof.
  intros [_ Ha]%validate_video_url_valid.
  apply validate_video_url_valid. split; [done|].
  destruct Ha as [sch w id rest Hsch Hw Hid | sch w params id rest Hsch Hw Hp Hid
                 | sch id rest Hsch Hid | sch w id rest Hsch Hw Hid
                 | sch w id rest Hsch Hw Hid];
    rewrite !sapp_assoc.
  - by apply Spec.shape_watch.
  - by apply Spec.shape_watch_params.
  - by apply Spec.shape_short.
  - by apply Spec.shape_embed.
  - by apply Spec.shape_v.
Qed.

Lemma accepted_url_stays_accepted_when_extended_witness :
  validate_video_url ("https://youtu.be/abc" +:+ "?t=10s#x y")
  = Valid ("https://youtu.be/abc" +:+ "?t=10s#x y").
Proof.
  apply (accepted_url_stays_accepted_when_extended "https://youtu.be/abc" "?t=10s#x y").
  reflexivity.
Defined.

(** The first pattern of the list never decides: what it matches, the
    second matches too, so the validator accepts the same texts without
    it. *)
Theorem first_url_pattern_is_redundant (value : string) :
  existsb (fun pattern => re_match pattern value) youtube_patterns
  = existsb (fun pattern => re_match pattern value) (tl youtube_patterns).
Proof.
  unfold youtube_patterns. cbn [tl existsb].
  match goal with |- ?a || ?b = ?b => destruct a eqn:H1; [|done] end.
  cbn [orb]. symmetry.
  match goal with |- ?p2 || _ = true => assert (p2 = true) as ->; [|done] end.
  apply re_match_spec in H1 as (p & rest & -> & Hp). cbn [cats] in Hp.
  apply matches_host_iff in Hp as (sch & h & t & Hsch & Hh & -> & Ht).
  apply matches_id_tail_iff in Ht as (id & Hid & ->).
  apply re_match_spec.
  exists (sch +:+ "://" +:+ h +:+ "youtube.com/watch?" +:+ EmptyString +:+ "v=" +:+ id), rest.
  split; [reflexivity|]. cbn [cats].
  apply matches_host_iff.
  exists sch, h, ("youtube.com/watch?" +:+ EmptyString +:+ "v=" +:+ id).
  repeat (split; [done|]). apply matches_lit_cat_iff.
  exists (EmptyString +:+ "v=" +:+ id). split; [done|].
  apply matches_cat_iff. exists EmptyString, ("v=" +:+ id). split; [done|].
  split; [by apply matches_star_cls_iff|]. apply matches_id_tail_iff. eauto.
Qed.

(** The loop runs to its end exactly on lists of valid names. *)
Lemma validate_styles_loop_None (value : list string) :
  validate_styles_loop value = None
  <-> Forall (fun s => In s valid_styles) value.
Proof.
  induction value as [|s value IH]; cbn [validate_styles_loop].
  - split; [intros _; by apply Forall_nil | done].
  - rewrite Forall_cons, <- IH, <- (list_in_spec s valid_styles).
    destruct (list_in s valid_styles); cbn [negb]; [tauto|].
    split; [done | by intros [? _]].
Qed.

(** The static phase lets a list through, unchanged, exactly when all its
    names are among the five valid ones; order and repetitions are kept, and
    the empty list passes. *)
Theorem validate_styles_accepts_exactly_valid_lists (value result : list string) :
  validate_styles (Some value) = Valid result
  <-> result = value /\ Forall (fun s => In s valid_styles) value.
Proof.
  unfold validate_styles. rewrite <- validate_styles_loop_None.
  destruct (validate_styles_loop value) as [msg|].
  - split; [done | by intros [_ ?]].
  - split; [by intros [= <-] | by intros [-> _]].
Qed.

(** *** Trimming *)

Lemma rstrip_cons (c : ascii) (s : string) :
  rstrip (String c s)
  = match rstrip s with
    | EmptyString => if isspace c then EmptyString else String c EmptyString
    | String a r => String c (String a r)
    end.
Proof. reflexivity. Qed.

Lemma rstrip_idempotent (s : string) : rstrip (rstrip s) = rstrip s.
Proof.
  induction s as [|c s IH]; [done|]. rewrite rstrip_cons.
  destruct (rstrip s) as [|a r] eqn:Hr.
  - destruct (isspace c) eqn:Hc; [done|]. rewrite rstrip_cons. cbn [rstrip].
    by rewrite Hc.
  - rewrite rstrip_cons. by rewrite IH.
Qed.

(** A text that does not start with whitespace keeps its start when
    trimmed on the right. *)
Lemma lstrip_rstrip (s : string) : lstrip s = s -> lstrip (rstrip s) = rstrip s.
Proof.
  destruct s as [|c s]; [done|]. cbn [lstrip].
  destruct (isspace c) eqn:Hc.
  - intros H. exfalso.
    assert (forall t, String.length (lstrip t) <= String.length t)%nat as Hlen.
    { induction t as [|a t IHt]; cbn; [lia|]. destruct (isspace a); cbn; lia. }
    specialize (Hlen s). rewrite H in Hlen. cbn in Hlen. lia.
  - intros _. rewrite rstrip_cons.
    destruct (rstrip s); rewrite ?Hc; cbn [lstrip]; by rewrite Hc.
Qed.

Lemma lstrip_idempotent (s : string) : lstrip (lstrip s) = lstrip s.
Proof.
  induction s as [|c s IH]; [done|]. cbn [lstrip].
  destruct (isspace c) eqn:Hc; [done|]. cbn [lstrip]. by rewrite Hc.
Qed.

Lemma strip_idempotent (s : string) : strip (strip s) = strip s.
Proof.
  unfold strip. rewrite lstrip_rstrip by apply lstrip_idempotent.
  apply rstrip_idempotent.
Qed.

(** *** Fields *)

(** What [CharField] accepts, and what it makes of it. *)
Lemma CharField_spec (allow_blank : bool) (max_length : option nat)
    (data value : string) :
  CharField allow_blank max_length data = Valid value
  <-> value = strip data
      /\ (value = EmptyString -> allow_blank = true)
      /\ (value <> EmptyString ->
          (forall n, max_length = Some n -> (String.length value <= n)%nat)
          /\ str_in (String "000" EmptyString) value = false).
Proof.
  unfold CharField. destruct (strip data) as [|c rest] eqn:Hs.
  - destruct allow_blank; split.
    + intros [= <-]. done.
    + by intros (-> & _).
    + done.
    + intros (-> & H & _). by specialize (H eq_refl).
  - destruct max_length as [n|].
    + destruct (n <? String.length (String c rest))%nat eqn:Hlen.
      * split; [done|]. intros (-> & _ & H). destruct (H ltac:(done)) as [Hn _].
        specialize (Hn n eq_refl). apply Nat.ltb_lt in Hlen. lia.
      * apply Nat.ltb_ge in Hlen.
        destruct (str_in _ (String c rest)) eqn:Hnul.
        -- split; [done|]. intros (-> & _ & H). destruct (H ltac:(done)) as [_ Hn].
           congruence.
        -- split; [intros [= <-] | by intros (-> & _)].
           split; [done|]. split; [done|]. intros _. split; [|done].
           by intros m [= <-].
    + destruct (str_in _ (String c rest)) eqn:Hnul.
      * split; [done|]. intros (-> & _ & H). destruct (H ltac:(done)) as [_ Hn].
        congruence.
      * split; [intros [= <-] | by intros (-> & _)].
        split; [done|]. split; [done|]. intros _. split; [done | done].
Qed.

Lemma ListField_valid {A} (child : string -> validation A)
    (data : list string) (result : list A) :
  ListField child data = Valid result
  <-> Forall2 (fun x a => child x = Valid a) data result.
Proof.
  revert result. induction data as [|x data IH]; intros result; cbn [ListField].
  - split; [intros [= <-]; constructor | by inversion 1].
  - destruct (child x) as [a|d] eqn:Hx.
    + destruct (ListField child data) as [l|d] eqn:Hl.
      * split.
        -- intros [= <-]. constructor; [done | by apply IH].
        -- inversion 1 as [|? ? ? l' Ha Hrest]; subst.
           rewrite Hx in Ha. injection Ha as ->.
           apply IH in Hrest. by injection Hrest as ->.
      * split; [done|]. inversion 1 as [|? ? ? l' Ha Hrest]; subst.
        by apply IH in Hrest.
    + split; [done|]. inversion 1 as [|? ? ? l' Ha Hrest]; subst. congruence.
Qed.

(** A list of texts that passes a list of [CharField]s comes out trimmed,
    item by item. *)
Lemma ListField_CharField (allow_blank : bool) (max_length : option nat)
    (data result : list string) :
  ListField (CharField allow_blank max_length) data = Valid result ->
  result = map strip data.
Proof.
  intros H%ListField_valid. induction H as [|x a data result Hx _ IH]; [done|].
  cbn [map]. apply CharField_valid in Hx. by rewrite Hx, IH.
Qed.

Section RequestSerializer.
Context {C : Collaborators}.

Lemma request_video_url_valid (d : option string) (u : string) :
  request_video_url d = Valid u ->
  exists raw, d = Some raw /\ u = strip raw
              /\ Spec.accepted_url u /\ url_validator u = true.
Proof.
  unfold request_video_url, URLField. destruct d as [raw|]; [|done].
  destruct (CharField false None raw) as [value|] eqn:Hraw; [|done].
  destruct (url_validator value) eqn:Hurl; [|done].
  intros [-> Hacc]%validate_video_url_valid.
  apply CharField_valid in Hraw as ->. by exists raw.
Qed.

Lemma request_styles_valid (d s : option (list string)) :
  request_styles d = Valid s ->
  match d with
  | None => s = None
  | Some raw =>
      s = Some (map strip raw)
      /\ Forall (fun s => In s valid_styles) (map strip raw)
  end.
Proof.
  unfold request_styles, validate_styles. destruct d as [raws|];
    [|by intros [= <-]].
  destruct (ListField _ raws) as [cleaned|] eqn:Hclean; [|done].
  apply ListField_CharField in Hclean as ->.
  destruct (validate_styles_loop _) as [msg|] eqn:Hloop; [done|].
  intros [= <-]. split; [done|]. by apply validate_styles_loop_None.
Qed.

(** Validated request data can be relied on: the URL is the request's,
    trimmed, it has one of the accepted shapes and has passed the
    framework's URL check; the styles, when given, are the request's,
    trimmed, and are all among the five valid names, and when not given are
    left out; the language is the request's, trimmed, not blank and within
    fifty characters, or English when not given. *)
Theorem validated_request_invariant (data : RequestData) (v : ValidatedRequest) :
  VideoProcessRequestSerializer data = inr v ->
  (exists raw, rd_video_url data = Some raw /\ vd_video_url v = strip raw)
  /\ Spec.accepted_url (vd_video_url v)
  /\ url_validator (vd_video_url v) = true
  /\ match rd_styles data with
     | None => vd_styles v = None
     | Some raw =>
         vd_styles v = Some (map strip raw)
         /\ Forall (fun s => In s valid_styles) (map strip raw)
     end
  /\ match rd_output_language data with
     | None => vd_output_language v = "English"
     | Some raw =>
         vd_output_language v = strip raw
         /\ strip raw <> EmptyString
         /\ (String.length (strip raw) <= 50)%nat
     end.
Proof.
  unfold VideoProcessRequestSerializer.
  destruct (request_video_url (rd_video_url data)) as [u|] eqn:Hu; [|done].
  destruct (request_styles (rd_styles data)) as [s|] eqn:Hs; [|done].
  destruct (request_output_language (rd_output_language data)) as [l|] eqn:Hl;
    [|done].
  intros [= <-]. cbn [vd_video_url vd_styles vd_output_language].
  apply request_video_url_valid in Hu as (raw & Hraw & -> & Hacc & Hurl).
  split; [by eexists|]. split; [done|]. split; [done|]. split.
  - by apply request_styles_valid.
  - unfold request_output_language in Hl.
    destruct (rd_output_language data) as [rawl|]; [|by injection Hl as <-].
    apply CharField_spec in Hl as (-> & Hblank & Hrest).
    assert (strip rawl <> EmptyString) as Hne.
    { intros Heq. by specialize (Hblank Heq). }
    split; [done|]. split; [done|].
    destruct (Hrest Hne) as [Hlen _]. by apply (Hlen 50%nat).
Qed.

End RequestSerializer.

Lemma validated_request_invariant_witness :
  Spec.accepted_url "https://youtu.be/abc123".
Proof.
  apply (@validated_request_invariant Mock.collaborators
           (mkRequestData (Some " https://youtu.be/abc123 ")
                          (Some ["Summary "; " Narrative"]) (Some "French "))
           (mkValidatedRequest "https://youtu.be/abc123"
                               (Some ["Summary"; "Narrative"]) "French")).
  vm_compute. reflexivity.
Defined.

(** ** The view *)

Section ViewProperties.
Context {C : Collaborators}.

Ltac refused :=
  cbv beta iota; intros Hrefused;
  apply (f_equal status) in Hrefused;
  rewrite error_response_status in Hrefused; discriminate Hrefused.

(** [_error_response] always answers with the status code it is given
    and an error body; the message goes out trimmed, with the code as text,
    or, when the serializer refuses it (a blank message, say), as it is and
    without a code. *)
Theorem error_response_shape (message : string) (status_code : Z) :
  status (_error_response message status_code) = status_code
  /\ exists err code,
       body (_error_response message status_code) = ErrorBody "error" err code
       /\ ((err = strip message /\ strip message <> EmptyString /\ is_Some code)
           \/ (err = message /\ code = None)).
Proof.
  split; [apply error_response_status|].
  unfold _error_response, ErrorResponseSerializer.
  change (CharField false None "error") with (@Valid string "error").
  destruct (CharField false None message) as [e|] eqn:He.
  - apply CharField_spec in He as (-> & Hblank & _).
    destruct (CharField false None (pretty status_code)) as [c|].
    + eexists _, _. split; [reflexivity|]. left. split; [done|]. split; [|done].
      intros Heq. by specialize (Hblank Heq).
    + eexists _, _. split; [reflexivity|]. by right.
  - eexists _, _. split; [reflexivity|]. by right.
Qed.

(** What a success response holds: the orchestrator's record with every
    text trimmed, the time stamp parsed, and of the results the entries
    under the five declared keys only. *)
Theorem success_response_contents (rd : ProcessingResult) (url s : string)
    (d : VideoData) :
  _create_success_response rd url = mkResponse (SuccessBody s d) HTTP_200_OK ->
  s = "success"
  /\ data_video_url d = strip (video_url rd)
  /\ url_validator (data_video_url d) = true
  /\ data_video_title d = strip (video_title rd)
  /\ data_video_title d <> EmptyString
  /\ parse_datetime (processed_at rd) = Some (data_processed_at d)
  /\ processing_time (data_metadata d) = processing_time (metadata rd)
  /\ language (data_metadata d) = strip (language (metadata rd))
  /\ styles_processed (data_metadata d) = map strip (styles_processed (metadata rd))
  /\ (forall k, data_results d !! k
                = if decide (k ∈ results_fields) then strip <$> results rd !! k
                  else None).
Proof.
  intros Hresp.
  pose proof (success_response_results rd url s d Hresp) as Hresults.
  revert Hresp.
  unfold _create_success_response, VideoProcessResponseSerializer,
    VideoDataSerializer, VideoMetadataSerializer, URLField, DateTimeField,
    FloatField.
  change (CharField false None "success") with (@Valid string "success").
  destruct (CharField false None (video_url rd)) as [u|] eqn:Hu;
    [|refused].
  destruct (url_validator u) eqn:Hurl; [|refused].
  destruct (CharField false None (video_title rd)) as [t|] eqn:Ht;
    [|refused].
  destruct (parse_datetime (processed_at rd)) as [p|] eqn:Hp;
    [|refused].
  destruct (VideoResultsSerializer (results rd)) as [r|] eqn:Hr;
    [|refused].
  destruct (CharField false None (language (metadata rd))) as [l|] eqn:Hl;
    [|refused].
  destruct (ListField _ (styles_processed (metadata rd))) as [sp|] eqn:Hsp;
    [|refused].
  intros [= <- <-]. cbn.
  apply ListField_CharField in Hsp as ->.
  apply CharField_valid in Hu as ->. apply CharField_valid in Hl as ->.
  apply CharField_spec in Ht as (-> & Hblank & _).
  repeat split; try done.
  intros Heq. by specialize (Hblank Heq).
Qed.

Lemma create_success_response_cases (rd : ProcessingResult) (url : string) :
  status (_create_success_response rd url) = HTTP_200_OK
  \/ _create_success_response rd url
     = _error_response "Response formatting error" HTTP_500_INTERNAL_SERVER_ERROR.
Proof.
  unfold _create_success_response, VideoProcessResponseSerializer.
  change (CharField false None "success") with (@Valid string "success").
  destruct (VideoDataSerializer rd) as [d|]; [by left | by right].
Qed.

(** The only other outcome of [_create_success_response] is the 500
    response that reports a formatting error; a record whose title is blank
    always ends that way, as happens when the stem of the last contributing
    file starts with the separator. *)
Theorem blank_title_is_a_formatting_error (rd : ProcessingResult) (url : string) :
  (status (_create_success_response rd url) = HTTP_200_OK
   \/ _create_success_response rd url
      = _error_response "Response formatting error" HTTP_500_INTERNAL_SERVER_ERROR)
  /\ (strip (video_title rd) = EmptyString ->
      _create_success_response rd url
      = _error_response "Response formatting error" HTTP_500_INTERNAL_SERVER_ERROR).
Proof.
  unfold _create_success_response, VideoProcessResponseSerializer,
    VideoDataSerializer.
  change (CharField false None "success") with (@Valid string "success").
  destruct (URLField (video_url rd)) as [u|]; [|by split; [right|]].
  destruct (CharField false None (video_title rd)) as [t|] eqn:Ht;
    [|by split; [right|]].
  split.
  - destruct (DateTimeField _) as [p|]; [|by right].
    destruct (VideoResultsSerializer _) as [r|]; [|by right].
    destruct (VideoMetadataSerializer _) as [m|]; [|by right].
    by left.
  - intros Hblank. apply CharField_spec in Ht as (-> & Hb & _).
    by specialize (Hb Hblank).
Qed.

Lemma create_success_response_status (rd : ProcessingResult) (url : string) :
  In (status (_create_success_response rd url)) view_statuses.
Proof.
  destruct (create_success_response_cases rd url) as [-> | ->].
  - cbn. tauto.
  - rewrite error_response_status. cbn. tauto.
Qed.

Lemma process_video_except_returns (e : PyExn) (w : World) :
  exists resp, _process_video_except e w = (w, Return resp)
               /\ In (status resp) view_statuses
               /\ status resp <> HTTP_200_OK.
Proof.
  destruct e; cbn; eexists; (split; [reflexivity|]);
    rewrite error_response_status; cbn; split; (tauto || done).
Qed.

(** The view always answers: [post] never raises, its status code is one
    of 200, 400, 422, 500 and 502, and it leaves behind no temporary
    directory that was not there before. *)
Theorem post_always_answers (data : RequestData) (w w' : World)
    (r : outcome Response) :
  post data w = (w', r) ->
  (exists resp, r = Return resp /\ In (status resp) view_statuses)
  /\ (forall d, d ∈ tempdirs w' -> d ∈ tempdirs w).
Proof.
  unfold post. destruct (VideoProcessRequestSerializer data) as [errors|v].
  { intros [= <- <-]. split; [|done]. eexists. split; [reflexivity|]. cbn. tauto. }
  unfold _process_video, try_except, mbind, M_bind, bind.
  pose proof (init_leaves_world w) as Hw.
  destruct (VideoProcessingService_init w) as [w0 [[]|e]]; cbn in Hw; subst w0.
  - destruct (process_video _ _ _ w) as [w1 [rd|e]] eqn:Hrun.
    + intros [= <- <-]. split.
      * eexists. split; [reflexivity | apply create_success_response_status].
      * intros d. by eapply process_video_keeps_no_tempdir.
    + destruct (process_video_except_returns e w1) as (resp & Hresp & Hst & _).
      rewrite Hresp. intros [= <- <-]. split; [by eexists|].
      intros d. by eapply process_video_keeps_no_tempdir.
  - destruct (process_video_except_returns e w) as (resp & Hresp & Hst & _).
    rewrite Hresp. intros [= <- <-]. split; [by eexists | done].
Qed.

Lemma serializer_errors_nonempty (data : RequestData) (errors : list (string * string)) :
  VideoProcessRequestSerializer data = inl errors -> errors <> [].
Proof.
  unfold VideoProcessRequestSerializer.
  destruct (request_video_url _) as [u|du];
    destruct (request_styles _) as [s|ds];
    destruct (request_output_language _) as [l|dl]; intros [= <-]; done.
Qed.

(** A request without a video URL, with a URL that (trimmed) has none of
    the accepted shapes, or with a style that (trimmed) is not one of the
    five valid names is answered 400 with the field errors, and nothing
    else happens: the world is untouched, the external service is not
    contacted. *)
Theorem bad_request_is_refused (data : RequestData) (w : World) :
  rd_video_url data = None
  \/ (exists u, rd_video_url data = Some u /\ ~ Spec.accepted_url (strip u))
  \/ (exists l s, rd_styles data = Some l /\ In s l /\ ~ In (strip s) valid_styles) ->
  exists errors,
    errors <> []
    /\ post data w
       = (w, Return (mkResponse
                       (InvalidRequestBody "error" "Invalid request data" errors)
                       HTTP_400_BAD_REQUEST)).
Proof.
  intros Hbad. unfold post.
  destruct (VideoProcessRequestSerializer data) as [errors|v] eqn:Hser.
  { exists errors. split; [by eapply serializer_errors_nonempty | done]. }
  exfalso. unfold VideoProcessRequestSerializer in Hser.
  destruct (request_video_url (rd_video_url data)) as [url|] eqn:Hu;
    [|by destruct (request_styles _), (request_output_language _)].
  destruct (request_styles (rd_styles data)) as [styles|] eqn:Hstyles;
    [|by destruct (request_output_language _)].
  apply request_video_url_valid in Hu as (raw & Hraw & -> & Hacc & _).
  apply request_styles_valid in Hstyles.
  destruct Hbad as [Hnone | [(u & Hu & Hnot) | (l & s & Hl & Hs & Hnot)]].
  - congruence.
  - rewrite Hraw in Hu. by injection Hu as <-.
  - rewrite Hl in Hstyles. destruct Hstyles as [_ Hall].
    rewrite Forall_forall in Hall. apply Hnot, (Hall (strip s)).
    apply list_elem_of_In, in_map_iff. by exists s.
Qed.

(** Without a configured API key the view answers 500 with the
    configuration message, whatever the request asks for, and the external
    service is never contacted. *)
Theorem missing_api_key_is_a_500 (v : ValidatedRequest) (w : World) :
  settings_OPENAI_API_KEY = None \/ settings_OPENAI_API_KEY = Some EmptyString ->
  _process_video v w
  = (w, Return (_error_response "OPENAI_API_KEY not configured"
                                HTTP_500_INTERNAL_SERVER_ERROR)).
Proof.
  intros Hkey.
  unfold _process_video, try_except, mbind, M_bind, bind.
  by rewrite (init_without_key w Hkey).
Qed.

(** Every failure of the orchestrator reaches the client with the status
    code and the message of the error raised; since the orchestrator raises
    categorised errors only, the view's answer for an unexpected exception is
    never used for it. *)
Theorem orchestrator_errors_keep_their_status (v : ValidatedRequest)
    (w w' : World) (e : PyExn) :
  VideoProcessingService_init w = (w, Return tt) ->
  process_video (vd_video_url v) (vd_styles v) (vd_output_language v) w
  = (w', Raise e) ->
  exists code,
    status_code e = Some code
    /\ _process_video v w = (w', Return (_error_response (str e) code))
    /\ status (_error_response (str e) code) = code.
Proof.
  intros Hinit Hrun.
  pose proof (process_video_raise_categorized _ _ _ _ _ _ Hrun) as Hcat.
  unfold _process_video, try_except, mbind, M_bind, bind.
  rewrite Hinit, Hrun.
  destruct e; try discriminate Hcat; eexists; (split; [reflexivity|]);
    (split; [reflexivity | apply error_response_status]).
Qed.

(** A style can pass the static phase and still be refused: when the
    catalogue the external service reports lacks a requested style, the view
    answers 400 with a message that starts by naming the invalid styles, and
    no processing is asked for. *)
Theorem style_missing_from_catalogue_is_a_400 (v : ValidatedRequest)
    (w w1 : World) (available requested : list string) (s : string) :
  VideoProcessingService_init w = (w, Return tt) ->
  get_available_styles w = (w1, Return available) ->
  vd_styles v = Some requested ->
  In s requested -> ~ In s available ->
  exists m,
    startswith "Invalid styles: " m = true
    /\ _process_video v w = (w1, Return (_error_response m HTTP_400_BAD_REQUEST))
    /\ events w1 = ApiGetAvailableStyles :: events w.
Proof.
  intros Hinit Hfetch Hstyles Hs Hns.
  destruct (process_video_missing_style
              (vd_video_url v) (vd_output_language v) requested available w w1 s
              Hfetch Hs Hns) as (m & Hm & Hrun).
  destruct (get_available_styles_frame w w1 _ Hfetch) as (_ & _ & Hev).
  exists m. split; [done|]. split; [|done].
  unfold _process_video, try_except, mbind, M_bind, bind.
  by rewrite Hinit, Hstyles, Hrun.
Qed.

End ViewProperties.

(** ** The exception handler *)

(** [custom_exception_handler] depends on the framework's handler having
    produced a response: for one of the application's own errors it answers
    with the error's message and status code in place of the framework's
    data and status, keeping the rest of the response; but when the
    framework's handler returned nothing, it raises instead of answering.
    Any other exception gets the framework's answer, whatever it is. *)
Theorem custom_exception_handler_needs_a_response {Data Rest : Type}
    (handler : PyExn -> option (@ExceptionHandler.HandlerResponse Data Rest))
    (exc : PyExn) :
  (categorized exc = false ->
   ExceptionHandler.custom_exception_handler handler exc = Return (handler exc))
  /\ (categorized exc = true -> handler exc = None ->
      exists e, ExceptionHandler.custom_exception_handler handler exc = Raise e
                /\ categorized e = false)
  /\ (categorized exc = true ->
      forall r, handler exc = Some r ->
      exists r' code,
        ExceptionHandler.custom_exception_handler handler exc = Return (Some r')
        /\ status_code exc = Some code
        /\ ExceptionHandler.data r' = ExceptionHandler.CustomData (str exc) code
        /\ ExceptionHandler.response_status_code r' = code
        /\ ExceptionHandler.rest r' = ExceptionHandler.rest r).
Proof.
  unfold ExceptionHandler.custom_exception_handler.
  destruct exc; cbn; (split; [|split]); try done.
  all: try (intros _ ->; by eexists).
  all: intros _ r ->; by eexists _, _.
Qed.

Lemma custom_exception_handler_needs_a_response_witness :
  exists e,
    ExceptionHandler.custom_exception_handler
      (fun _ : PyExn => @None (@ExceptionHandler.HandlerResponse unit unit))
      (ProcessingTimeoutError "Processing timeout")
    = Raise e
    /\ categorized e = false.
Proof.
  apply (custom_exception_handler_needs_a_response
           (fun _ : PyExn => @None (@ExceptionHandler.HandlerResponse unit unit))
           (ProcessingTimeoutError "Processing timeout")); reflexivity.
Defined.

(** ** The mock factory and the Output Normalizer *)

Lemma split_app_sep (sep : ascii) (a b : string) :
  split sep (a +:+ String sep b) = split sep a ++ split sep b.
Proof.
  induction a as [|c a IH].
  - change (EmptyString +:+ String sep b) with (String sep b). cbn [split].
    by rewrite Ascii.eqb_refl.
  - rewrite sapp_cons. cbn [split]. rewrite IH.
    pose proof (split_nonempty sep a) as Hne.
    destruct (Ascii.eqb c sep); [done|]. by destruct (split sep a).
Qed.

Lemma str_in_char_app (c : ascii) (a b : string) :
  str_in (String c EmptyString) (a +:+ b)
  = str_in (String c EmptyString) a || str_in (String c EmptyString) b.
Proof.
  induction a as [|x a IH].
  - change (EmptyString +:+ b) with b. by destruct b.
  - rewrite sapp_cons. cbn. rewrite IH, !andb_true_r. by rewrite orb_assoc.
Qed.

Lemma rfind_app (c : ascii) (a b : string) :
  rfind c b = None -> rfind c (a +:+ String c b) = Some (String.length a).
Proof.
  intros Hb. induction a as [|x a IH].
  - change (EmptyString +:+ String c b) with (String c b). cbn.
    by rewrite Hb, Ascii.eqb_refl.
  - rewrite sapp_cons. cbn. by rewrite IH.
Qed.

Lemma take_app (a b : string) : take (String.length a) (a +:+ b) = a.
Proof.
  induction a as [|x a IH]; [by destruct b|]. rewrite sapp_cons. cbn. by rewrite IH.
Qed.

Lemma length_sapp (a b : string) :
  String.length (a +:+ b) = (String.length a + String.length b)%nat.
Proof.
  induction a as [|x a IH]; [done|]. rewrite sapp_cons. cbn. by rewrite IH.
Qed.

(** The stem of [dir/name.md] is [name], for a name without a slash. *)
Lemma stem_of_md (dir name : string) :
  name <> EmptyString ->
  str_in "/" name = false ->
  stem (dir +:+ "/" +:+ name +:+ ".md") = name.
Proof.
  intros Hne Hslash. unfold stem, path_name.
  change (dir +:+ "/" +:+ name +:+ ".md")
    with (dir +:+ String "/" (name +:+ ".md")).
  rewrite split_app_sep.
  rewrite (split_one_part "/" (name +:+ ".md"))
    by (rewrite str_in_char_app, Hslash; reflexivity).
  rewrite List.filter_app.
  assert (List.filter
            (fun x => negb (String.eqb x EmptyString || String.eqb x "."))
            [name +:+ ".md"] = [name +:+ ".md"]) as ->.
  { cbn [List.filter].
    assert (forall t, String.length t <> String.length (name +:+ ".md") ->
                      String.eqb (name +:+ ".md") t = false) as Hlen.
    { intros t Ht. apply String.eqb_neq. intros Heq. by rewrite Heq in Ht. }
    rewrite !Hlen; [done | |]; rewrite length_sapp; cbn; lia. }
  rewrite last_last.
  change (name +:+ ".md") with (name +:+ String "." "md").
  rewrite rfind_app by reflexivity.
  assert ((0 <? String.length name)%nat = true) as ->.
  { apply Nat.ltb_lt. destruct name; [done | cbn; lia]. }
  assert ((String.length name <? String.length (name +:+ String "." "md") - 1)%nat
          = true) as ->.
  { apply Nat.ltb_lt. rewrite length_sapp. cbn. lia. }
  cbn [andb]. apply take_app.
Qed.

Lemma replace_keeps_absent (c old : ascii) (new s : string) :
  str_in (String c EmptyString) new = false ->
  str_in (String c EmptyString) s = false ->
  str_in (String c EmptyString) (replace old new s) = false.
Proof.
  intros Hnew. induction s as [|x s IH]; [done|]. cbn.
  rewrite andb_true_r. intros [Hx Hs]%orb_false_iff.
  destruct (Ascii.eqb x old).
  - rewrite str_in_char_app, Hnew. by apply IH.
  - cbn. rewrite andb_true_r, Hx. by apply IH.
Qed.

Lemma lower_ascii_space (c : ascii) :
  Ascii.eqb (lower_ascii c) " " = Ascii.eqb c " ".
Proof. by destruct c as [[] [] [] [] [] [] [] []]. Qed.

(** Lowercasing and putting underscores for spaces can be done in either
    order, and putting underscores for spaces twice is doing it once. *)
Lemma lower_replace_space (s : string) :
  lower (replace " " "_" s) = replace " " "_" (lower s).
Proof.
  induction s as [|c s IH]; [done|]. cbn [replace lower].
  rewrite lower_ascii_space. destruct (Ascii.eqb c " ").
  - change ("_" +:+ replace " " "_" s) with (String "_" (replace " " "_" s)).
    cbn [lower]. by rewrite IH.
  - cbn [lower]. by rewrite IH.
Qed.

Lemma replace_space_twice (s : string) :
  replace " " "_" (replace " " "_" s) = replace " " "_" s.
Proof.
  induction s as [|c s IH]; [done|]. cbn [replace].
  destruct (Ascii.eqb c " ") eqn:Hc.
  - change ("_" +:+ replace " " "_" s) with (String "_" (replace " " "_" s)).
    cbn [replace]. change (Ascii.eqb "_" " ") with false. cbv iota. by rewrite IH.
  - cbn [replace]. by rewrite Hc, IH.
Qed.

(** A label and the file-name form the factory gives it have the same key,
    when the label has no ampersand. *)
Lemma result_key_of_file_name_form (style : string) :
  str_in "&" style = false ->
  Spec.result_key (replace "&" "and" (replace " " "_" style))
  = Spec.result_key style.
Proof.
  intros Hamp.
  rewrite (replace_absent "&" "and")
    by (by apply replace_keeps_absent).
  unfold Spec.result_key, Spec.fallback_key, Spec.normalized.
  by rewrite !lower_replace_space, !replace_space_twice.
Qed.

(** The factory's file names and the Output Normalizer agree: the file
    the factory names for a title and a style label, once on disk, is read
    back as that title, and under the key of the file-name form of the
    label, which is the key of the label itself when the label has no
    ampersand. The title must hold neither the separator nor a slash, and
    the label no slash. *)
Theorem factory_file_names_parse_back
    (temp_dir title style content : string)
    (files results : gmap string string) (title0 path : string) :
  str_in "_" title = false ->
  str_in "/" title = false ->
  str_in "/" style = false ->
  Factories.create_output_files temp_dir title (Some [style]) = [path] ->
  files !! path = Some content ->
  parse_output_file files (results, title0) path
  = (<[Spec.result_key (replace "&" "and" (replace " " "_" style)) := content]>
       results, title)
  /\ (str_in "&" style = false ->
      parse_output_file files (results, title0) path
      = (<[Spec.result_key style := content]> results, title)).
Proof.
  intros Htitle Hslash_t Hslash_s Hpath Hfile.
  unfold Factories.create_output_files in Hpath. cbn [map] in Hpath.
  injection Hpath as <-.
  set (sf := replace "&" "and" (replace " " "_" style)) in *.
  assert (str_in "/" sf = false) as Hsf.
  { unfold sf. apply replace_keeps_absent; [reflexivity|].
    by apply replace_keeps_absent. }
  assert (stem (temp_dir +:+ "/" +:+ title +:+ "_" +:+ sf +:+ ".md")
          = title +:+ "_" +:+ sf) as Hstem.
  { rewrite <- (stem_of_md temp_dir (title +:+ "_" +:+ sf)).
    - by rewrite !sapp_assoc.
    - by destruct title.
    - by rewrite !str_in_char_app, Hslash_t, Hsf. }
  assert (parse_output_file files (results, title0)
            (temp_dir +:+ "/" +:+ title +:+ "_" +:+ sf +:+ ".md")
          = (<[Spec.result_key sf := content]> results, title)) as Hparse.
  { rewrite (parse_output_file_separator _ _ _ _ content Hfile);
      rewrite Hstem.
    2:{ rewrite str_in_char_app. cbn. by rewrite orb_true_r. }
    unfold Spec.raw_label, Spec.title_candidate.
    change (title +:+ "_" +:+ sf) with (title +:+ String "_" sf).
    rewrite split_app_sep, (split_one_part "_" title) by done.
    cbn [app hd tl]. by rewrite join_split. }
  split; [done|]. intros Hamp. rewrite Hparse.
  unfold sf. by rewrite result_key_of_file_name_form.
Qed.

Lemma factory_file_names_parse_back_witness :
  parse_output_file
    {[ "/tmp/t/My Talk_Balanced_and_Detailed.md" := "text" ]}
    (∅, "Unknown Title") "/tmp/t/My Talk_Balanced_and_Detailed.md"
  = (<[Spec.result_key "Balanced and Detailed" := "text"]> ∅, "My Talk").
Proof.
  apply (factory_file_names_parse_back "/tmp/t" "My Talk" "Balanced and Detailed"
           "text" {[ "/tmp/t/My Talk_Balanced_and_Detailed.md" := "text" ]} ∅
           "Unknown Title" "/tmp/t/My Talk_Balanced_and_Detailed.md");
    vm_compute; reflexivity.
Defined.

(** The ampersand is where the two part: the factory's file for the label
    of the questions-and-answers style is not read back under that style's
    key. *)
Example factory_file_of_qa_style :
  Factories.create_output_files "/tmp/t" "Talk" (Some ["Q&A Generation"])
  = ["/tmp/t/Talk_QandA_Generation.md"]
  /\ key_of "/tmp/t/Talk_QandA_Generation.md" = "qanda_generation"
  /\ Spec.result_key "Q&A Generation" = "qa_generation".
Proof. repeat split; reflexivity. Qed.

(** ** The further properties at work on the test double *)


Lemma process_video_raises_only_categorized_witness :
  categorized (ProcessingTimeoutError "Video processing timed out") = true
  /\ is_Some (status_code (ProcessingTimeoutError "Video processing timed out")).
Proof.
  apply (@process_video_raises_only_categorized Mock.collaborators
           "https://youtu.be/slow" None "English" Mock.world0
           (fst (@process_video Mock.collaborators
                   "https://youtu.be/slow" None "English" Mock.world0))).
  vm_compute. reflexivity.
Defined.

Lemma invalid_style_aborts_before_processing_witness :
  let w1 := fst (@get_available_styles Mock.collaborators Mock.world0) in
  (exists m, startswith "Invalid styles: " m = true
             /\ @process_video Mock.collaborators
                  "https://youtu.be/abc" (Some ["Summary"; "Balanced"]) "English"
                  Mock.world0
                = (w1, Raise (VideoValidationError m)))
  /\ events w1 = ApiGetAvailableStyles :: events Mock.world0
  /\ files w1 = files Mock.world0
  /\ tempdirs w1 = tempdirs Mock.world0.
Proof.
  intros w1.
  apply (@invalid_style_aborts_before_processing Mock.collaborators
           "https://youtu.be/abc" "English" ["Summary"; "Balanced"]
           ["Summary"; "Educational"] Mock.world0 w1).
  - vm_compute. reflexivity.
  - exists "Balanced". split; [cbn; tauto|].
    intros H. apply list_in_spec in H. vm_compute in H. discriminate H.
Defined.



Lemma post_always_answers_witness :
  let run := @post Mock.collaborators
               (mkRequestData (Some "https://youtu.be/slow") (Some ["Summary"]) None)
               Mock.world0 in
  (exists resp, snd run = Return resp /\ In (status resp) view_statuses)
  /\ (forall d, d ∈ tempdirs (fst run) -> d ∈ tempdirs Mock.world0).
Proof.
  intros run.
  apply (@post_always_answers Mock.collaborators
           (mkRequestData (Some "https://youtu.be/slow") (Some ["Summary"]) None)
           Mock.world0 (fst run) (snd run)).
  apply surjective_pairing.
Defined.

Lemma bad_request_is_refused_witness :
  exists errors,
    errors <> []
    /\ @post Mock.collaborators
         (mkRequestData (Some "https://youtu.be/abc") (Some ["Summary"; " summary "])
                        None)
         Mock.world0
       = (Mock.world0,
          Return (mkResponse
                    (InvalidRequestBody "error" "Invalid request data" errors)
                    HTTP_400_BAD_REQUEST)).
Proof.
  apply (@bad_request_is_refused Mock.collaborators
           (mkRequestData (Some "https://youtu.be/abc") (Some ["Summary"; " summary "])
                          None)
           Mock.world0).
  right; right. exists ["Summary"; " summary "], " summary ".
  split; [reflexivity|]. split; [cbn; tauto|].
  intros H. apply list_in_spec in H. vm_compute in H. discriminate H.
Defined.

Lemma missing_api_key_is_a_500_witness :
  @_process_video MockUnconfigured.collaborators
    (mkValidatedRequest "https://youtu.be/abc" None "English")
    MockUnconfigured.world0
  = (MockUnconfigured.world0,
     Return (@_error_response MockUnconfigured.collaborators
               "OPENAI_API_KEY not configured" HTTP_500_INTERNAL_SERVER_ERROR)).
Proof.
  apply (@missing_api_key_is_a_500 MockUnconfigured.collaborators).
  right. reflexivity.
Defined.

Lemma orchestrator_errors_keep_their_status_witness :
  let v := mkValidatedRequest "https://youtu.be/typed" (Some ["Summary"]) "English" in
  let w' := fst (@process_video Mock.collaborators
                   "https://youtu.be/typed" (Some ["Summary"]) "English" Mock.world0) in
  exists code,
    status_code (ProcessingTimeoutError "Processing timeout") = Some code
    /\ @_process_video Mock.collaborators v Mock.world0
       = (w', Return (@_error_response Mock.collaborators "Processing timeout" code))
    /\ status (@_error_response Mock.collaborators "Processing timeout" code) = code.
Proof.
  intros v w'.
  apply (@orchestrator_errors_keep_their_status Mock.collaborators v Mock.world0 w'
           (ProcessingTimeoutError "Processing timeout")).
  - reflexivity.
  - vm_compute. reflexivity.
Defined.

Lemma style_missing_from_catalogue_is_a_400_witness :
  let v := mkValidatedRequest "https://youtu.be/abc" (Some ["Narrative"]) "English" in
  let w1 := fst (@get_available_styles Mock.collaborators Mock.world0) in
  exists m,
    startswith "Invalid styles: " m = true
    /\ @_process_video Mock.collaborators v Mock.world0
       = (w1, Return (@_error_response Mock.collaborators m HTTP_400_BAD_REQUEST))
    /\ events w1 = ApiGetAvailableStyles :: events Mock.world0.
Proof.
  intros v w1.
  apply (@style_missing_from_catalogue_is_a_400 Mock.collaborators v Mock.world0 w1
           ["Summary"; "Educational"] ["Narrative"] "Narrative").
  - reflexivity.
  - vm_compute. reflexivity.
  - reflexivity.
  - cbn. tauto.
  - intros H. apply list_in_spec in H. vm_compute in H. discriminate H.
Defined.

Lemma success_response_contents_witness :
  let rd := @mkProcessingResult Mock.collaborators
              " https://youtu.be/abc" "My Talk " "2026-01-01T00:00:00+00:00"
              {[ "summary" := String "010" "text " ; "notes" := "dropped" ]}
              (@mkMetadata Mock.collaborators 3%nat "English" ["Summary "]) in
  let d := @mkVideoData Mock.collaborators
             "https://youtu.be/abc" "My Talk" "2026-01-01T00:00:00+00:00"
             {[ "summary" := "text" ]}
             (@mkMetadata Mock.collaborators 3%nat "English" ["Summary"]) in
  data_video_title d = strip (video_title rd)
  /\ data_results d !! "notes" = None.
Proof.
  intros rd d.
  destruct (@success_response_contents Mock.collaborators rd "https://youtu.be/abc"
              "success" d ltac:(vm_compute; reflexivity))
    as (_ & _ & _ & Ht & _ & _ & _ & _ & _ & Hr).
  split; [exact Ht|]. exact (Hr "notes").
Defined.

Lemma catalogue_failure_is_never_classified_witness :
  exists w1,
    @process_video MockCatalogueDown.collaborators
      "https://youtu.be/abc" None "English" MockCatalogueDown.world0
    = (w1, Raise (ExternalServiceError
                    "Failed to get available styles: Connection timeout"))
    /\ ext w1 = 1%nat
    /\ events w1 = [ApiGetAvailableStyles]
    /\ files w1 = ∅
    /\ tempdirs w1 = ∅.
Proof.
  apply (@catalogue_failure_is_never_classified MockCatalogueDown.collaborators
           "https://youtu.be/abc" None "English" MockCatalogueDown.world0
           1%nat (OtherException "Connection timeout")).
  reflexivity.
Defined.
